(** * nologd: a shallow embedding of [main.cpp]

    The daemon listens on the three journal sockets, drains whatever
    becomes readable through a [SocketReader], lets a handler massage
    every chunk and appends the result to standard output.

    The embedding keeps the shape of the C++ source:
    - [char buf[2048]] is a list of bytes that is read and written by
      index; every access a handler makes is recorded, and an access
      outside the array has no defined result;
    - the classes are inductive types with one function per method,
      named [Class_method];
    - [std::map<int, shared_ptr<Observer>>] is a [gmap Z observer], the
      interest list of the epoll instance and the descriptor table of
      the process are [gset Z];
    - methods that touch the watcher, the descriptors or the standard
      streams run in a state-and-exception monad over [world];
    - what the kernel answers ([read], [accept4], [epoll_wait],
      [socket], [bind]) is an input of the model, and so is the moment
      a signal arrives: while the program waits in [epoll_wait], or
      while a callback runs. *)

From Stdlib Require Import ZArith Lia List Strings.Byte Strings.String.
From Stdlib Require Import Strings.Ascii Numbers.DecimalString.
From stdpp Require Import base option list gmap.
Import ListNotations.

Local Open Scope Z_scope.

(* ================================================================== *)
(** ** Characters *)

#[global] Instance byte_eq_dec : EqDecision byte := Byte.byte_eq_dec.

Definition chr_nul   : byte := x00.   (* '\0' *)
Definition chr_nl    : byte := x0a.   (* '\n' *)
Definition chr_space : byte := x20.   (* ' '  *)
Definition chr_lt    : byte := x3c.   (* '<'  *)
Definition chr_gt    : byte := x3e.   (* '>'  *)

(** [isdigit] of the C locale; no byte above 127 is a digit. *)
Definition isdigit (c : byte) : bool :=
  ((48 <=? Byte.to_N c) && (Byte.to_N c <=? 57))%N.

Definition bytes (s : string) : list byte := list_byte_of_string s.

(* ================================================================== *)
(** ** The character buffer handed to a handler *)

Module Buf.

(** One read or write of [buf[i]]. *)
Inductive access := Rd (i : Z) | Wr (i : Z).

Definition index (a : access) : Z :=
  match a with Rd i => i | Wr i => i end.

Record state := mk {
  cells : list byte;          (* the array object behind [char *buf] *)
  accesses : list access      (* every [buf[i]] evaluated so far     *)
}.

Definition init (cs : list byte) : state := mk cs [].

(** A computation over the buffer; [None] when it has no defined
    result (an index outside the array) or the loop budget of the
    model is used up. *)
Definition M (A : Type) : Type := state -> option (A * state).

Definition ret {A} (a : A) : M A := fun s => Some (a, s).

Definition bind {A B} (m : M A) (k : A -> M B) : M B :=
  fun s => match m s with
           | Some (a, s') => k a s'
           | None => None
           end.

Definition fail {A} : M A := fun _ => None.

(** [buf[i]] as an rvalue. *)
Definition load (i : Z) : M byte := fun s =>
  if 0 <=? i then
    match cells s !! Z.to_nat i with
    | Some c => Some (c, mk (cells s) (accesses s ++ [Rd i]))
    | None => None
    end
  else None.

(** [buf[i] = c]. *)
Definition store (i : Z) (c : byte) : M unit := fun s =>
  if (0 <=? i) && (i <? Z.of_nat (length (cells s))) then
    Some (tt, mk (<[Z.to_nat i := c]> (cells s)) (accesses s ++ [Wr i]))
  else None.

End Buf.

Declare Scope buf_scope.
Delimit Scope buf_scope with buf.
Notation "'let*' x ':=' m 'in' k" := (Buf.bind m (fun x => k))
  (at level 10, x name, m at level 100, k at level 200) : buf_scope.
Notation "m ';;' k" := (Buf.bind m (fun _ => k))
  (at level 100, k at level 200, right associativity) : buf_scope.

(* ================================================================== *)
(** ** LoggerInterface and HandlerInterface *)

(** The call [_logger->write(buf + w_off, w_len)] a handler ends with. *)
Record write_call := mk_write { w_off : Z; w_len : Z }.

(** The bytes [buf + off .. buf + off + len) the logger is asked to
    write.  A negative [int] length reaches [::write] as a [size_t]
    above [SSIZE_MAX], for which nothing is written. *)
Definition forwarded (cs : list byte) (w : write_call) : list byte :=
  take (Z.to_nat (w_len w)) (drop (Z.to_nat (w_off w)) cs).

(** [FileLogger::write]: a newline, then the bytes. *)
Definition FileLogger_write (cs : list byte) (w : write_call) : list byte :=
  chr_nl :: forwarded cs w.

Section Handlers.
Local Open Scope buf_scope.

(** [StreamHandler::handle]. *)
Definition StreamHandler_handle (len : Z) : Buf.M write_call :=
  Buf.ret (mk_write 0 len).

(** [do ++start; while (start < len && isdigit(buf[start]));] *)
Fixpoint skip_digits (fuel : nat) (len start : Z) : Buf.M Z :=
  match fuel with
  | O => Buf.fail
  | S fuel' =>
      let start := start + 1 in
      if start <? len then
        let* c := Buf.load start in
        if isdigit c then skip_digits fuel' len start else Buf.ret start
      else Buf.ret start
  end.

(** [while (end > 0 && buf[end] == '\n') buf[end--] = '\0';] *)
Fixpoint trim_newlines (fuel : nat) (end_ : Z) : Buf.M Z :=
  match fuel with
  | O => Buf.fail
  | S fuel' =>
      if 0 <? end_ then
        let* c := Buf.load end_ in
        if decide (c = chr_nl) then
          Buf.store end_ chr_nul ;; trim_newlines fuel' (end_ - 1)
        else Buf.ret end_
      else Buf.ret end_
  end.

(** [SyslogHandler::handle]. *)
Definition SyslogHandler_handle (len : Z) : Buf.M write_call :=
  let start := 0 in
  let end_ := len - 1 in
  let* start :=
    (if start <? len then
       let* c := Buf.load start in
       if decide (c = chr_lt) then
         let* start := skip_digits (Z.to_nat len) len start in
         let* c := Buf.load start in
         if decide (c = chr_gt) then Buf.ret (start + 1)
         else Buf.ret start
       else Buf.ret start
     else Buf.ret start) in
  let* end_ := trim_newlines (S (Z.to_nat len)) end_ in
  Buf.ret (mk_write start (end_ - start)).

(** [for (int pos = 0; pos < len; pos++)
       if (buf[pos] == '\n') buf[pos] = ' ';] *)
Fixpoint fold_newlines (fuel : nat) (len pos : Z) : Buf.M unit :=
  if pos <? len then
    match fuel with
    | O => Buf.fail
    | S fuel' =>
        let* c := Buf.load pos in
        (if decide (c = chr_nl) then Buf.store pos chr_space
         else Buf.ret tt) ;;
        fold_newlines fuel' len (pos + 1)
    end
  else Buf.ret tt.

(** [JournalHandler::handle]. *)
Definition JournalHandler_handle (len : Z) : Buf.M write_call :=
  fold_newlines (Z.to_nat len) len 0 ;;
  Buf.ret (mk_write 0 len).

End Handlers.

(** The three implementations of [HandlerInterface]. *)
Inductive handler := SyslogHandler | JournalHandler | StreamHandler.

(** Virtual dispatch of [HandlerInterface::handle]. *)
Definition handle (h : handler) (len : Z) : Buf.M write_call :=
  match h with
  | SyslogHandler => SyslogHandler_handle len
  | JournalHandler => JournalHandler_handle len
  | StreamHandler => StreamHandler_handle len
  end.

(** What one [handle(buf, len)] call leaves behind: the buffer, the
    indices it touched and the bytes it passed to the logger. *)
Record handled := mk_handled {
  h_cells : list byte;
  h_accesses : list Buf.access;
  h_call : write_call
}.

Definition run_handler (h : handler) (cs : list byte) (len : Z)
  : option handled :=
  match handle h len (Buf.init cs) with
  | Some (w, s) => Some (mk_handled (Buf.cells s) (Buf.accesses s) w)
  | None => None
  end.

Definition h_forwarded (r : handled) : list byte :=
  forwarded (h_cells r) (h_call r).

(* ================================================================== *)
(** ** Descriptors as [::read] sees them *)

Inductive descriptor :=
  | StreamFd (pending : list byte) (peer_open : bool)
      (* SOCK_STREAM: queued bytes, and whether the peer still holds
         its end *)
  | DgramFd (msgs : list (list byte)).
      (* SOCK_DGRAM: queued messages, oldest first *)

(** The bytes a descriptor holds. *)
Definition available (d : descriptor) : list byte :=
  match d with
  | StreamFd p _ => p
  | DgramFd ms => concat ms
  end.

(** [::read(fd, buf, count)] on a non-blocking socket: the value
    returned, the bytes stored at [buf], and the descriptor afterwards.
    A stream gives up to [count] queued bytes; without any it returns 0
    once the peer is gone and -1 (EAGAIN) before.  A datagram socket
    gives one message per call, cut to [count] bytes with the excess
    discarded, and -1 (EAGAIN) when the queue is empty. *)
Definition sys_read (count : nat) (d : descriptor)
  : Z * list byte * descriptor :=
  match d with
  | StreamFd [] peer => ((if peer then -1 else 0), [], d)
  | StreamFd p peer =>
      (Z.of_nat (length (take count p)), take count p,
       StreamFd (drop count p) peer)
  | DgramFd [] => (-1, [], d)
  | DgramFd (m :: ms) =>
      (Z.of_nat (length (take count m)), take count m, DgramFd ms)
  end.

(** The number of [read] calls that can still return data. *)
Definition reads_left (d : descriptor) : nat :=
  match d with
  | StreamFd p _ => length p
  | DgramFd ms => length ms
  end.

(* ================================================================== *)
(** ** SocketReader *)

(** [NELEMS(buf)] for [char buf[2048]]. *)
Definition NELEMS_buf : nat := 2048.

(** What one [SocketReader::read] call did: the chunk [buf[0..len)]
    given to each [handle] call, the bytes the logger appended to its
    file, and the descriptor and the buffer at the end. *)
Record drained := mk_drained {
  d_chunks : list (list byte);
  d_written : list byte;
  d_desc : descriptor;
  d_buf : list byte
}.

(** [while ((len = ::read(sock_fd, buf, NELEMS(buf) - 1)) > 0)
        _handler->handle(buf, len);]
    [buf] is the array as the previous iteration left it. *)
Fixpoint SocketReader_read (fuel : nat) (h : handler) (d : descriptor)
    (buf : list byte) : option drained :=
  match fuel with
  | O => None
  | S fuel' =>
      let '(len, data, d') := sys_read (NELEMS_buf - 1) d in
      let buf := data ++ drop (length data) buf in
      if 0 <? len then
        match run_handler h buf len with
        | Some r =>
            match SocketReader_read fuel' h d' (h_cells r) with
            | Some rest =>
                Some (mk_drained
                        (take (Z.to_nat len) buf :: d_chunks rest)
                        (FileLogger_write (h_cells r) (h_call r)
                           ++ d_written rest)
                        (d_desc rest) (d_buf rest))
            | None => None
            end
        | None => None
        end
      else Some (mk_drained [] [] d' buf)
  end.

(** A [char buf[2048]] whose elements start out as whatever [junk] the
    stack held. *)
Definition stack_buf (junk : list byte) : list byte :=
  take NELEMS_buf (junk ++ replicate NELEMS_buf chr_nul).

(** One call of [read(sock_fd)] on a reader object. *)
Definition reader_read (h : handler) (d : descriptor) (junk : list byte)
  : option drained :=
  SocketReader_read (S (reads_left d)) h d (stack_buf junk).

(* ================================================================== *)
(** ** The process: watcher, descriptor table, standard streams *)

(** [std::runtime_error], the only exception the program throws. *)
Inductive exn := runtime_error (what : string).

(** The four classes that implement [ObservableInterface<int>::Observer]. *)
Inductive observer_class :=
  SyslogObserver | SocketObserver | StreamObserver | StdoutObserver.

#[global] Instance observer_class_eq_dec : EqDecision observer_class.
Proof. solve_decision. Defined.

(** An observer object.  [obj] stands for the address of the object a
    [shared_ptr] points to: two pointers share an object exactly when
    the numbers agree.  [_reader] names the handler inside the
    [SocketReader] the observer was built with. *)
Record observer := mk_observer {
  obj : nat;
  cls : observer_class;
  sock_fd : Z;
  _reader : handler
}.

(** [Observer::key]. *)
Definition key (o : observer) : Z := sock_fd o.

(** What [signal] installed for a signal number. *)
Inductive disposition := SIG_IGN | Handler_stop.

Record world := mk_world {
  observers : gmap Z observer;   (* SocketObservable::observers          *)
  epoll_set : gset Z;            (* interest list behind [epoll_fd]      *)
  stopped : bool;                (* SocketObservable::stopped            *)
  open_fds : gset Z;             (* descriptors open in the process      *)
  signals : gmap Z disposition;  (* installed signal dispositions        *)
  out : list byte;               (* bytes written to standard output     *)
  err : list byte;               (* bytes written to standard error      *)
  next_obj : nat;                (* next fresh object address            *)
  notified : list observer       (* receivers of [notify], oldest first  *)
}.
(* The last two fields are bookkeeping of the embedding: the program
   has no variable for them, and no branch of it depends on them. *)

Definition set_observers (f : gmap Z observer -> gmap Z observer)
    (w : world) : world :=
  mk_world (f (observers w)) (epoll_set w) (stopped w) (open_fds w)
           (signals w) (out w) (err w) (next_obj w) (notified w).
Definition set_epoll_set (f : gset Z -> gset Z) (w : world) : world :=
  mk_world (observers w) (f (epoll_set w)) (stopped w) (open_fds w)
           (signals w) (out w) (err w) (next_obj w) (notified w).
Definition set_stopped (b : bool) (w : world) : world :=
  mk_world (observers w) (epoll_set w) b (open_fds w)
           (signals w) (out w) (err w) (next_obj w) (notified w).
Definition set_open_fds (f : gset Z -> gset Z) (w : world) : world :=
  mk_world (observers w) (epoll_set w) (stopped w) (f (open_fds w))
           (signals w) (out w) (err w) (next_obj w) (notified w).
Definition set_signals (f : gmap Z disposition -> gmap Z disposition)
    (w : world) : world :=
  mk_world (observers w) (epoll_set w) (stopped w) (open_fds w)
           (f (signals w)) (out w) (err w) (next_obj w) (notified w).
Definition put_out (bs : list byte) (w : world) : world :=
  mk_world (observers w) (epoll_set w) (stopped w) (open_fds w)
           (signals w) (out w ++ bs) (err w) (next_obj w) (notified w).
Definition put_err (bs : list byte) (w : world) : world :=
  mk_world (observers w) (epoll_set w) (stopped w) (open_fds w)
           (signals w) (out w) (err w ++ bs) (next_obj w) (notified w).
Definition bump_obj (w : world) : world :=
  mk_world (observers w) (epoll_set w) (stopped w) (open_fds w)
           (signals w) (out w) (err w) (S (next_obj w)) (notified w).
Definition log_notify (o : observer) (w : world) : world :=
  mk_world (observers w) (epoll_set w) (stopped w) (open_fds w)
           (signals w) (out w) (err w) (next_obj w) (notified w ++ [o]).

(** How a call ends: it returns, an exception leaves it, or it has no
    defined behaviour. *)
Inductive result (A : Type) :=
  | Ok (a : A) (w : world)
  | Throw (e : exn) (w : world)
  | Undefined.
Arguments Ok {A} a w.
Arguments Throw {A} e w.
Arguments Undefined {A}.

Module Proc.

Definition M (A : Type) : Type := world -> result A.

Definition ret {A} (a : A) : M A := fun w => Ok a w.

Definition bind {A B} (m : M A) (k : A -> M B) : M B :=
  fun w => match m w with
           | Ok a w' => k a w'
           | Throw e w' => Throw e w'
           | Undefined => Undefined
           end.

Definition throw {A} (e : exn) : M A := fun w => Throw e w.

(** [try { body } catch (runtime_error &err) { handler }] *)
Definition try_catch (body : M unit) (handler : exn -> M unit) : M unit :=
  fun w => match body w with
           | Ok a w' => Ok a w'
           | Throw e w' => handler e w'
           | Undefined => Undefined
           end.

Definition get : M world := fun w => Ok w w.
Definition modify (f : world -> world) : M unit := fun w => Ok tt (f w).

End Proc.

Declare Scope proc_scope.
Delimit Scope proc_scope with proc.
Notation "'let*' x ':=' m 'in' k" := (Proc.bind m (fun x => k))
  (at level 10, x name, m at level 100, k at level 200) : proc_scope.
Notation "m ';;' k" := (Proc.bind m (fun _ => k))
  (at level 100, k at level 200, right associativity) : proc_scope.

(** The world a call leaves behind, when there is one. *)
Definition world_of {A} (r : result A) : option world :=
  match r with
  | Ok _ w => Some w
  | Throw _ w => Some w
  | Undefined => None
  end.

Definition is_throw {A} (r : result A) : Prop :=
  match r with Throw _ _ => True | _ => False end.

Section Process.
Local Open Scope proc_scope.

(** [close(fd)]: the table entry goes, and with it the entry in the
    interest list of the epoll instance. *)
Definition sys_close (fd : Z) : Proc.M unit :=
  Proc.modify (fun w =>
    set_epoll_set (fun s => s ∖ {[fd]}) (set_open_fds (fun s => s ∖ {[fd]}) w)).

(** The destructor every observer class has: [close(sock_fd)]. *)
Definition Observer_destroy (o : observer) : Proc.M unit :=
  sys_close (sock_fd o).

(** [epoll_addwatch]: [epoll_ctl(EPOLL_CTL_ADD)], whose result is not
    looked at; the kernel refuses a descriptor that is not open. *)
Definition epoll_addwatch (fd : Z) : Proc.M unit :=
  Proc.modify (fun w =>
    if decide (fd ∈ open_fds w)
    then set_epoll_set (fun s => s ∪ {[fd]}) w else w).

(** [epoll_ctl(epoll_fd, EPOLL_CTL_DEL, key, NULL)], result ignored. *)
Definition epoll_delwatch (fd : Z) : Proc.M unit :=
  Proc.modify (set_epoll_set (fun s => s ∖ {[fd]})).

(** [observers[k] = observer]: the slot takes the pointer; the object
    the slot held before is destroyed when that was the last pointer
    to it, which it is whenever the new pointer is to another object
    (callers keep their own pointer only for the duration of the
    call). *)
Definition observers_assign (k : Z) (o : observer) : Proc.M unit :=
  let* w := Proc.get in
  Proc.modify (set_observers (insert k o)) ;;
  match observers w !! k with
  | Some old =>
      if decide (obj old = obj o) then Proc.ret tt
      else Observer_destroy old
  | None => Proc.ret tt
  end.

(** [observers.erase(key)]. *)
Definition observers_erase (k : Z) : Proc.M unit :=
  let* w := Proc.get in
  Proc.modify (set_observers (delete k)) ;;
  match observers w !! k with
  | Some old => Observer_destroy old
  | None => Proc.ret tt
  end.

(** [SocketObservable::addObserver]. *)
Definition addObserver (o : observer) : Proc.M unit :=
  let* w := Proc.get in
  (if decide (observers w !! key o = None)
   then epoll_addwatch (key o) else Proc.ret tt) ;;
  observers_assign (key o) o.

(** [SocketObservable::delObserver(int key)]. *)
Definition delObserver (k : Z) : Proc.M unit :=
  epoll_delwatch k ;;
  observers_erase k.

(** [SocketObservable::delObserver(shared_ptr<Observer> &)]. *)
Definition delObserver_ptr (o : observer) : Proc.M unit :=
  delObserver (key o).

End Process.

(* ================================================================== *)
(** ** Observers *)

(** What the kernel has in store for the calls one [notify] makes. *)
Record os_response := mk_resp {
  r_input : descriptor;    (* the socket the observer reads from       *)
  r_junk : list byte;      (* the stack under [buf] when [read] starts *)
  r_accept : Z             (* the value [accept4] returns              *)
}.

(** What the kernel answers to [socket] and [bind] in [unix_open]. *)
Record open_response := mk_open { o_socket : Z; o_bind : Z }.

Definition SIGHUP : Z := 1.
Definition SIGINT : Z := 2.
Definition SIGUSR1 : Z := 10.
Definition SIGTERM : Z := 15.

(** [operator<<(int)]. *)
Definition show_int (n : Z) : list byte :=
  bytes (NilZero.string_of_int (Z.to_int n)).

Section Observers.
Local Open Scope proc_scope.

(** [fd_set_nonblock]: [fcntl] flags are not part of [world]. *)
Definition fd_set_nonblock (fd : Z) : Proc.M unit := Proc.ret tt.

(** [unix_open].  [unlink], [strncpy] and the path bound by [bind]
    leave [world] alone. *)
Definition unix_open (r : open_response) : Proc.M Z :=
  let fd := o_socket r in
  if 0 <=? fd then
    Proc.modify (set_open_fds (fun s => s ∪ {[fd]})) ;;
    if o_bind r <? 0 then
      sys_close fd ;;
      Proc.ret (-1)
    else Proc.ret fd
  else Proc.ret fd.

(** [unix_accept]: [accept4] on a descriptor that is not open fails. *)
Definition unix_accept (stdout_fd : Z) (r : os_response) : Proc.M Z :=
  let* w := Proc.get in
  let fd := if decide (stdout_fd ∈ open_fds w) then r_accept r else -1 in
  (if 0 <=? fd then Proc.modify (set_open_fds (fun s => s ∪ {[fd]}))
   else Proc.ret tt) ;;
  Proc.ret fd.

(** [make_shared<C>]: the object gets an address of its own. *)
Definition new_object (c : observer_class) (fd : Z) (reader : handler)
  : Proc.M observer :=
  let* w := Proc.get in
  Proc.modify bump_obj ;;
  Proc.ret (mk_observer (next_obj w) c fd reader).

(** [SyslogObserver::SyslogObserver]; the [symlink] leaves [world]
    alone. *)
Definition SyslogObserver_new (reader : handler) (r : open_response)
  : Proc.M observer :=
  let* sock_fd := unix_open r in
  if sock_fd <? 0 then Proc.throw (runtime_error "socket failed")
  else
    fd_set_nonblock sock_fd ;;
    new_object SyslogObserver sock_fd reader.

(** [SocketObserver::SocketObserver]. *)
Definition SocketObserver_new (reader : handler) (r : open_response)
  : Proc.M observer :=
  let* sock_fd := unix_open r in
  if sock_fd <? 0 then Proc.throw (runtime_error "socket failed")
  else
    fd_set_nonblock sock_fd ;;
    new_object SocketObserver sock_fd reader.

(** [StdoutObserver::StdoutObserver]; the result of [listen] is not
    looked at. *)
Definition StdoutObserver_new (reader : handler) (r : open_response)
  : Proc.M observer :=
  let* sock_fd := unix_open r in
  if sock_fd <? 0 then Proc.throw (runtime_error "socket failed")
  else new_object StdoutObserver sock_fd reader.

(** [StreamObserver::StreamObserver]. *)
Definition StreamObserver_new (listen_sock : Z) (reader : handler)
    (r : os_response) : Proc.M observer :=
  let* sock_fd := unix_accept listen_sock r in
  if sock_fd <? 0 then Proc.throw (runtime_error "accept failed")
  else
    fd_set_nonblock sock_fd ;;
    new_object StreamObserver sock_fd reader.

(** [_reader->read(sock_fd)]: a descriptor that is not open makes
    [::read] fail at once; what the logger writes lands on standard
    output. *)
Definition ReaderInterface_read (reader : handler) (fd : Z)
    (r : os_response) : Proc.M unit :=
  fun w =>
    let d := if decide (fd ∈ open_fds w) then r_input r else DgramFd [] in
    match reader_read reader d (r_junk r) with
    | Some dr => Ok tt (put_out (d_written dr) w)
    | None => Undefined
    end.

(** [SyslogObserver::notify]. *)
Definition SyslogObserver_notify (o : observer) (r : os_response)
  : Proc.M unit :=
  ReaderInterface_read (_reader o) (sock_fd o) r.

(** [SocketObserver::notify]. *)
Definition SocketObserver_notify (o : observer) (r : os_response)
  : Proc.M unit :=
  ReaderInterface_read (_reader o) (sock_fd o) r.

(** [StreamObserver::notify]. *)
Definition StreamObserver_notify (o : observer) (r : os_response)
  : Proc.M unit :=
  ReaderInterface_read (_reader o) (sock_fd o) r ;;
  delObserver (sock_fd o).

(** [StdoutObserver::notify]. *)
Definition StdoutObserver_notify (o : observer) (r : os_response)
  : Proc.M unit :=
  let* streamObserver := StreamObserver_new (sock_fd o) (_reader o) r in
  addObserver streamObserver.

(** Virtual dispatch of [Observer::notify]. *)
Definition notify (o : observer) (r : os_response) : Proc.M unit :=
  match cls o with
  | SyslogObserver => SyslogObserver_notify o r
  | SocketObserver => SocketObserver_notify o r
  | StreamObserver => StreamObserver_notify o r
  | StdoutObserver => StdoutObserver_notify o r
  end.

(* ---------------------------------------------------------------- *)
(** ** SocketObservable::loop and ::stop *)

(** [SocketObservable::stop]. *)
Definition stop (signo : Z) : Proc.M unit :=
  Proc.modify (put_out (bytes "stopped signo = " ++ show_int signo
                          ++ [chr_nl])) ;;
  Proc.modify (set_stopped true).

(** How one [epoll_wait(epoll_fd, &ev, 1, -1)] goes. *)
Inductive wait_result :=
  | Ready (fd : Z)                   (* 1, with [ev.data.fd = fd]      *)
  | Interrupted (signo : option Z)   (* signal [signo] arrives during
                                        the wait; a handler makes the
                                        call end with -1 and EINTR, and
                                        [ev] is left as it was.  [None]:
                                        EINTR without a signal of the
                                        program's                      *)
  | Failed.                          (* -1 and another errno           *)

(** One turn of the loop as the kernel shapes it: how the wait goes,
    what the kernel answers to the calls of the callback, and the
    signals that arrive while the callback runs, each with the number
    of bytes the callback has written to standard output by then. *)
Record os_event := mk_os_event {
  e_wait : wait_result;
  e_resp : os_response;
  e_async : list (Z * nat)
}.

(** A turn during whose callback no signal arrives. *)
Definition mk_event (wr : wait_result) (r : os_response) : os_event :=
  mk_os_event wr r [].

(** [signal(signo, stop)] is in force. *)
Definition caught (signo : Z) (w : world) : bool :=
  match signals w !! signo with
  | Some Handler_stop => true
  | _ => false
  end.

(** A signal arrives during [epoll_wait]: an installed handler runs.
    [SIG_IGN] discards the signal. *)
Definition deliver (signo : option Z) : Proc.M unit :=
  let* w := Proc.get in
  match signo with
  | Some n =>
      match signals w !! n with
      | Some Handler_stop => stop n
      | _ => Proc.ret tt
      end
  | None => Proc.ret tt
  end.

(** Whether the wait ends with EINTR: it does when a handler ran, and
    not for a signal that is discarded. *)
Definition ends_wait (signo : option Z) (w : world) : bool :=
  match signo with
  | Some n => caught n w
  | None => true
  end.

(** What [stop signo] leaves when it ran at the moment standard output
    held [pos] bytes, seen from the world [w] the interrupted code went
    on to. *)
Definition stop_at (pos : nat) (signo : Z) (w : world) : world :=
  mk_world (observers w) (epoll_set w) true (open_fds w) (signals w)
           (take pos (out w)
              ++ (bytes "stopped signo = " ++ show_int signo ++ [chr_nl])
              ++ drop pos (out w))
           (err w) (next_obj w) (notified w).

(** Signal [a.1] arrives during a callback that started with [base]
    bytes on standard output, at the moment standard output holds
    [a.2] bytes more. *)
Definition arrive (base : nat) (a : Z * nat) (w : world) : world :=
  if caught a.1 w then stop_at (base + a.2) a.1 w else w.

(** A callback during which the signals [asyncs] arrive.  The handler
    runs between two steps of the callback; the callback reads neither
    the flag nor standard output, so the handler's writes are applied
    to the world the callback ends in. *)
Definition during (asyncs : list (Z * nat)) (m : Proc.M unit)
  : Proc.M unit :=
  fun w =>
    let arrived := foldl (fun v a => arrive (length (out w)) a v) in
    match m w with
    | Ok a w' => Ok a (arrived w' asyncs)
    | Throw e w' => Throw e (arrived w' asyncs)
    | Undefined => Undefined
    end.

(** [if (observers.find(fd) != observers.end())
       observers.at(fd)->notify( *this);] *)
Definition dispatch (fd : Z) (r : os_response) : Proc.M unit :=
  let* w := Proc.get in
  match observers w !! fd with
  | Some o => Proc.modify (log_notify o) ;; notify o r
  | None => Proc.ret tt
  end.

(** Where a finite run of the loop stands: it left the [while], or it
    sits in [epoll_wait] with no further event to come. *)
Inductive loop_end := Left_loop | In_wait.

(** [while (!stopped) { ... }] over the events the kernel delivers;
    [ev] is the [fd] member of the local [struct epoll_event].  A
    signal that does not end the wait leaves the program in the same
    [epoll_wait]. *)
Fixpoint loop_from (es : list os_event) (ev : Z) : Proc.M loop_end :=
  fun w =>
    if stopped w then Ok Left_loop w
    else
      match es with
      | [] => Ok In_wait w
      | e :: es' =>
          match e_wait e with
          | Failed => Throw (runtime_error "epoll_wait failed") w
          | Ready fd =>
              (during (e_async e) (dispatch fd (e_resp e)) ;;
               loop_from es' fd) w
          | Interrupted signo =>
              if ends_wait signo w then
                (deliver signo ;;
                 during (e_async e) (dispatch ev (e_resp e)) ;;
                 loop_from es' ev) w
              else loop_from es' ev w
          end
      end.

(** [SocketObservable::loop]; [ev0] is what the uninitialised [ev]
    holds. *)
Definition loop (ev0 : Z) (es : list os_event) : Proc.M loop_end :=
  Proc.modify (set_signals (insert SIGUSR1 SIG_IGN)) ;;
  Proc.modify (set_signals (insert SIGHUP SIG_IGN)) ;;
  Proc.modify (set_signals (insert SIGINT Handler_stop)) ;;
  Proc.modify (set_signals (insert SIGTERM Handler_stop)) ;;
  loop_from es ev0.

(* ---------------------------------------------------------------- *)
(** ** main *)

(** The kernel's answers while [main] builds the observers. *)
Record boot := mk_boot {
  b_syslog : open_response;    (* /run/systemd/journal/dev-log *)
  b_journal : open_response;   (* /run/systemd/journal/socket  *)
  b_stdout : open_response;    (* /run/systemd/journal/stdout  *)
  b_ev : Z                     (* the uninitialised [ev]       *)
}.

(** [cerr << err.what() << endl;] *)
Definition report (e : exn) : Proc.M unit :=
  match e with
  | runtime_error what => Proc.modify (put_err (bytes what ++ [chr_nl]))
  end.

(** The three [try] blocks of [main]. *)
Definition main_observers (b : boot) : Proc.M unit :=
  let syslogReader := SyslogHandler in
  let journalReader := JournalHandler in
  let streamReader := StreamHandler in
  Proc.try_catch
    (let* syslogObserver := SyslogObserver_new syslogReader (b_syslog b) in
     addObserver syslogObserver) report ;;
  Proc.try_catch
    (let* journalObserver := SocketObserver_new journalReader (b_journal b) in
     addObserver journalObserver) report ;;
  Proc.try_catch
    (let* streamObserver := StdoutObserver_new streamReader (b_stdout b) in
     addObserver streamObserver) report.

(** [main]. *)
Definition main (b : boot) (es : list os_event) : Proc.M Z :=
  main_observers b ;;
  loop (b_ev b) es ;;
  Proc.ret 0.

End Observers.

(** The process as [main] finds it: the standard descriptors are open,
    the watcher is freshly constructed. *)
Definition start_world : world :=
  mk_world ∅ ∅ false {[0; 1; 2]} ∅ [] [] 0 [].

(* ================================================================== *)
(** ** Notions the statements below are phrased with *)

(** A newline becomes a space, every other byte stays. *)
Definition newline_to_space (c : byte) : byte :=
  if decide (c = chr_nl) then chr_space else c.





(** Registering [o] is refused and the entry under its key stays. *)
Definition register_rejects_duplicate (w : world) (o : observer) : Prop :=
  is_throw (addObserver o w) /\
  forall w', world_of (addObserver o w) = Some w' ->
             observers w' !! key o = observers w !! key o.

(** The signal handler does nothing but set the flag. *)
Definition stop_only_sets_flag (signo : Z) (w : world) : Prop :=
  stop signo w = Ok tt (set_stopped true w).

(** The line [stop] prints. *)
Definition stop_message (signo : Z) : list byte :=
  bytes "stopped signo = " ++ show_int signo ++ [chr_nl].

(** The descriptor [unix_open] hands back when [socket] and [bind]
    both succeed. *)
Definition opened (r : open_response) : option Z :=
  if (0 <=? o_socket r) && negb (o_bind r <? 0) then Some (o_socket r)
  else None.





(** What [main] writes to standard error for one endpoint. *)
Definition failure_report (r : open_response) : list byte :=
  match opened r with
  | Some _ => []
  | None => bytes "socket failed" ++ [chr_nl]
  end.

(** The common shape of the three constructors [main] calls. *)
Definition persistent_new (c : observer_class) (reader : handler)
    (r : open_response) : Proc.M observer :=
  fun w =>
    match unix_open r w with
    | Ok fd w1 =>
        if fd <? 0 then Throw (runtime_error "socket failed") w1
        else new_object c fd reader w1
    | Throw e w1 => Throw e w1
    | Undefined => Undefined
    end.

(** One [try { make_shared; addObserver } catch { report }] block. *)
Definition try_block (new : Proc.M observer) : Proc.M unit :=
  Proc.try_catch (Proc.bind new addObserver) report.

(** The objects of class [StreamObserver] that received [notify], in
    the order of the calls. *)
Definition stream_notifications (log : list observer) : list nat :=
  map obj (filter (fun o => cls o = StreamObserver) log).

(** What the registry, the object counter and the log of [notify]
    calls satisfy throughout a run. *)
Record registry_inv (m : gmap Z observer) (n : nat) (log : list observer)
  : Prop := mk_registry_inv {
  inv_key : forall k o, m !! k = Some o -> sock_fd o = k;
  inv_bound : forall k o, m !! k = Some o -> (obj o < n)%nat;
  inv_log : forall o, o ∈ log -> (obj o < n)%nat;
  inv_inj : forall k1 k2 o1 o2,
      m !! k1 = Some o1 -> m !! k2 = Some o2 -> obj o1 = obj o2 -> k1 = k2;
  inv_pending : forall k o,
      m !! k = Some o -> cls o = StreamObserver ->
      obj o ∉ stream_notifications log;
  inv_once : NoDup (stream_notifications log)
}.

Definition world_inv (w : world) : Prop :=
  registry_inv (observers w) (next_obj w) (notified w).

(** The property holds of the world a call ends in, and the call is
    defined. *)
Definition ends_in {A} (P : world -> Prop) (r : result A) : Prop :=
  match r with
  | Ok _ w => P w
  | Throw _ w => P w
  | Undefined => False
  end.

(** The part of the world the invariant speaks about is the same. *)
Definition same_registry (w w' : world) : Prop :=
  observers w' = observers w /\ next_obj w' = next_obj w /\
  notified w' = notified w.

(* ------------------------------------------------------------------ *)
(** *** Concrete inputs *)

Definition hello_datagram : list byte := bytes "<13>hello" ++ [chr_nl].
Definition hello_untagged : list byte := bytes "hello" ++ [chr_nl].
Definition line_one_line_two : list byte :=
  bytes "line one" ++ [chr_nl] ++ bytes "line two".

(** One queued datagram of 3000 bytes. *)
Definition oversized_datagram : descriptor :=
  DgramFd [replicate 3000 chr_space].


Definition syslog_on_3 : observer :=
  mk_observer 0 SyslogObserver 3 SyslogHandler.
Definition journal_on_3 : observer :=
  mk_observer 1 SocketObserver 3 JournalHandler.
Definition stream_on_6 : observer :=
  mk_observer 3 StreamObserver 6 StreamHandler.

(** The syslog observer is registered on descriptor 3. *)
Definition world_with_3 : world :=
  mk_world {[3 := syslog_on_3]} {[3]} false {[0; 1; 2; 3]} ∅ [] [] 2 [].

(** A connection was accepted on descriptor 6. *)
Definition world_with_6 : world :=
  mk_world {[6 := stream_on_6]} {[6]} false {[0; 1; 2; 6]} ∅ [] [] 4 [].

(** All three sockets come up, on descriptors 3, 4 and 5. *)
Definition boot_all_ok : boot :=
  mk_boot (mk_open 3 0) (mk_open 4 0) (mk_open 5 0) 0.


Definition nothing_pending : os_response := mk_resp (DgramFd []) [] (-1).

(** [epoll_wait] reports the listener, [accept4] fails; a datagram on
    the syslog socket would be next. *)
Definition accept_fails_then_datagram : list os_event :=
  [ mk_event (Ready 5) nothing_pending;
    mk_event (Ready 3) (mk_resp (DgramFd [hello_datagram]) [] (-1)) ].

(** A connection is accepted, then SIGTERM interrupts the next wait. *)
Definition accept_then_sigterm : list os_event :=
  [ mk_event (Ready 5) (mk_resp (DgramFd []) [] 6);
    mk_event (Interrupted (Some SIGTERM)) nothing_pending ].

(* ------------------------------------------------------------------ *)
(** *** Notions for the further properties *)

(** What [SyslogHandler::handle] may touch on an input of [len] bytes:
    it reads up to [buf[len]] and writes strictly inside the input,
    never its first byte. *)
Definition access_ok (len : Z) (a : Buf.access) : Prop :=
  match a with
  | Buf.Rd i => 0 <= i <= len
  | Buf.Wr i => 0 < i < len
  end.

(** What a piece of [SyslogHandler::handle] did to the buffer, on an
    input of [len] bytes: it added accesses that are all allowed, and
    left the array's size and its elements from [len] on alone. *)
Definition buf_step_ok (len : Z) (s s' : Buf.state) : Prop :=
  (exists more, Buf.accesses s' = Buf.accesses s ++ more /\
                Forall (access_ok len) more) /\
  length (Buf.cells s') = length (Buf.cells s) /\
  drop (Z.to_nat len) (Buf.cells s') = drop (Z.to_nat len) (Buf.cells s).

(** The byte a handler that keeps the length passes on for [c]. *)
Definition handler_map (h : handler) (c : byte) : byte :=
  match h with
  | JournalHandler => newline_to_space c
  | _ => c
  end.

(** The fields no registry operation and no [notify] touches. *)
Definition same_process (w w' : world) : Prop :=
  stopped w' = stopped w /\ signals w' = signals w /\ err w' = err w.

(** Every watched descriptor is a key of the registry and is open. *)
Definition watch_inv (w : world) : Prop :=
  forall fd, fd ∈ epoll_set w ->
             is_Some (observers w !! fd) /\ fd ∈ open_fds w.

(** A step that leaves flag, dispositions and standard error alone and
    keeps [watch_inv]. *)
Definition step_ok (w w' : world) : Prop :=
  same_process w w' /\ (watch_inv w -> watch_inv w').

(** No signal arrives during the run: none while the program waits,
    none while a callback runs. *)
Definition no_signal (es : list os_event) : Prop :=
  Forall (fun e => (forall s, e_wait e <> Interrupted (Some s)) /\
                   e_async e = []) es.

(** The two signals [loop] sets to [SIG_IGN]. *)
Definition is_flush (s : Z) : bool := (s =? SIGUSR1) || (s =? SIGHUP).

(** [stop] is the handler of neither of them. *)
Definition ignores_flush (w : world) : Prop :=
  forall s, is_flush s = true -> caught s w = false.

(** The signals that arrive during a callback, without SIGUSR1 and
    SIGHUP. *)
Definition strike (asyncs : list (Z * nat)) : list (Z * nat) :=
  filter (fun a => is_flush a.1 = false) asyncs.

(** The events of a run with every arrival of SIGUSR1 or SIGHUP struck
    out, during a wait as well as during a callback. *)
Fixpoint without_flush (es : list os_event) : list os_event :=
  match es with
  | [] => []
  | e :: es' =>
      match e_wait e with
      | Interrupted (Some s) =>
          if is_flush s then without_flush es'
          else mk_os_event (e_wait e) (e_resp e) (strike (e_async e))
                 :: without_flush es'
      | _ => mk_os_event (e_wait e) (e_resp e) (strike (e_async e))
               :: without_flush es'
      end
  end.

(** The four [signal] calls at the top of [loop]. *)
Definition install_signals (w : world) : world :=
  set_signals (insert SIGTERM Handler_stop)
    (set_signals (insert SIGINT Handler_stop)
       (set_signals (insert SIGHUP SIG_IGN)
          (set_signals (insert SIGUSR1 SIG_IGN) w))).

(** The run of the loop is over: it left the [while], or it threw. *)
Definition run_over (r : result loop_end) : Prop :=
  match r with
  | Ok Left_loop _ => True
  | Throw _ _ => True
  | _ => False
  end.

(* ================================================================== *)
(** * Properties *)

(** ** Buffer accesses inside the array are defined *)

Section BufferFacts.
Import Buf.

(** Reading inside the array yields the cell and records the read. *)
Lemma load_in_range (s : state) (i : Z) :
  0 <= i < Z.of_nat (length (cells s)) ->
  exists c, cells s !! Z.to_nat i = Some c /\
            load i s = Some (c, mk (cells s) (accesses s ++ [Rd i])).
Proof.
  intros Hi.
  destruct (lookup_lt_is_Some_2 (cells s) (Z.to_nat i)) as [c Hc]; [lia|].
  exists c. split; [exact Hc|].
  unfold load. rewrite Hc.
  destruct (0 <=? i) eqn:E; [reflexivity | apply Z.leb_gt in E; lia].
Qed.

(** Writing inside the array updates the cell and records the write. *)
Lemma store_in_range (s : state) (i : Z) (c : byte) :
  0 <= i < Z.of_nat (length (cells s)) ->
  store i c s = Some (tt, mk (<[Z.to_nat i := c]> (cells s)) (accesses s ++ [Wr i])).
Proof.
  intros Hi. unfold store.
  destruct (0 <=? i) eqn:E1; [|apply Z.leb_gt in E1; lia].
  destruct (i <? Z.of_nat (length (cells s))) eqn:E2; [reflexivity|].
  apply Z.ltb_ge in E2. lia.
Qed.

End BufferFacts.

(** The loop over the digits ends, at most at [len], when [buf[len]]
    is still inside the array; it changes no cell. *)
Lemma skip_digits_total (fuel : nat) : forall (len start : Z) (s : Buf.state),
  0 <= start < len -> len < Z.of_nat (length (Buf.cells s)) ->
  (Z.to_nat (len - start) <= fuel)%nat ->
  exists start' s',
    skip_digits fuel len start s = Some (start', s') /\
    start < start' <= len /\ Buf.cells s' = Buf.cells s.
Proof.
  induction fuel as [|fuel IH]; intros len start s Hs Hlen Hfuel; [lia|].
  cbn [skip_digits].
  destruct (start + 1 <? len) eqn:E.
  - apply Z.ltb_lt in E.
    destruct (load_in_range s (start + 1)) as (c & _ & Hload); [lia|].
    unfold Buf.bind. rewrite Hload.
    destruct (isdigit c).
    + destruct (IH len (start + 1) (Buf.mk (Buf.cells s) (Buf.accesses s ++ [Buf.Rd (start + 1)])))
        as (start' & s' & Hrun & Hb & Hc); cbn; [lia..|].
      exists start', s'. repeat split; [exact Hrun|lia|lia|exact Hc].
    + eexists _, _. repeat split; [lia|lia].
  - apply Z.ltb_ge in E. eexists _, _. repeat split; lia.
Qed.

(** The loop over the trailing newlines ends and keeps the array's
    size. *)
Lemma trim_newlines_total (fuel : nat) : forall (end_ : Z) (s : Buf.state),
  end_ < Z.of_nat (length (Buf.cells s)) ->
  (Z.to_nat end_ < fuel)%nat ->
  exists end' s',
    trim_newlines fuel end_ s = Some (end', s') /\
    end' <= end_ /\ length (Buf.cells s') = length (Buf.cells s).
Proof.
  induction fuel as [|fuel IH]; intros end_ s Hlen Hfuel; [lia|].
  cbn [trim_newlines].
  destruct (0 <? end_) eqn:E.
  - apply Z.ltb_lt in E.
    destruct (load_in_range s end_) as (c & _ & Hload); [lia|].
    unfold Buf.bind at 1. rewrite Hload.
    destruct (decide (c = chr_nl)).
    + unfold Buf.bind. rewrite store_in_range by (cbn; lia).
      match goal with |- context [trim_newlines fuel ?e ?t] =>
        destruct (IH e t) as (end' & s' & Hrun & Hb & Hc) end.
      * cbn. rewrite length_insert. lia.
      * lia.
      * exists end', s'. split; [exact Hrun|]. split; [lia|].
        rewrite Hc. cbn. apply length_insert.
    + eexists _, _. repeat split. lia.
  - eexists _, _. repeat split. lia.
Qed.

(** [SyslogHandler::handle] is defined whenever the array has an
    element past the [len] bytes of input, as [SocketReader::read]
    guarantees by asking for [NELEMS(buf) - 1] bytes. *)
Lemma SyslogHandler_handle_total (len : Z) (s : Buf.state) :
  len < Z.of_nat (length (Buf.cells s)) ->
  exists w s',
    SyslogHandler_handle len s = Some (w, s') /\
    length (Buf.cells s') = length (Buf.cells s).
Proof.
  intros Hlen. unfold SyslogHandler_handle.
  assert (Hstart : exists start s1,
    (if 0 <? len then
       Buf.bind (Buf.load 0) (fun c =>
         if decide (c = chr_lt) then
           Buf.bind (skip_digits (Z.to_nat len) len 0) (fun start =>
             Buf.bind (Buf.load start) (fun c =>
               if decide (c = chr_gt) then Buf.ret (start + 1) else Buf.ret start))
         else Buf.ret 0)
     else Buf.ret 0) s = Some (start, s1) /\ Buf.cells s1 = Buf.cells s).
  { destruct (0 <? len) eqn:E; [|eexists _, _; split; reflexivity].
    apply Z.ltb_lt in E.
    destruct (load_in_range s 0) as (c & _ & Hload); [lia|].
    unfold Buf.bind at 1. rewrite Hload.
    destruct (decide (c = chr_lt)); [|eexists _, _; split; reflexivity].
    unfold Buf.bind at 1.
    match goal with |- context [skip_digits ?f len 0 ?t] =>
      destruct (skip_digits_total f len 0 t) as (st & s1 & Hrun & Hb & Hc) end;
      [lia | cbn; lia | lia |].
    rewrite Hrun.
    destruct (load_in_range s1 st) as (c' & _ & Hload'); [rewrite Hc; cbn; lia|].
    unfold Buf.bind. rewrite Hload'.
    destruct (decide (c' = chr_gt)); eexists _, _; (split; [reflexivity|]); cbn;
      rewrite Hc; reflexivity. }
  destruct Hstart as (start & s1 & Hrun & Hc).
  unfold Buf.bind at 1. rewrite Hrun.
  destruct (trim_newlines_total (S (Z.to_nat len)) (len - 1) s1)
    as (end' & s2 & Hrun2 & _ & Hc2); [rewrite Hc; lia | lia |].
  unfold Buf.bind. rewrite Hrun2.
  eexists _, _. split; [reflexivity|]. cbn. rewrite Hc2, Hc. reflexivity.
Qed.

(** ** JournalHandler *)

(** The [for] loop, started at the end of [pre], rewrites [mid] and
    nothing else. *)
Lemma fold_newlines_spec (mid : list byte) :
  forall (pre post : list byte) (acc : list Buf.access) (fuel : nat),
  (length mid <= fuel)%nat ->
  exists acc',
    fold_newlines fuel (Z.of_nat (length pre + length mid))
                  (Z.of_nat (length pre)) (Buf.mk (pre ++ mid ++ post) acc)
    = Some (tt, Buf.mk (pre ++ map newline_to_space mid ++ post) acc').
Proof.
  induction mid as [|b mid IH]; intros pre post acc fuel Hfuel.
  - exists acc. destruct fuel; cbn [fold_newlines length];
      rewrite Nat.add_0_r, Z.ltb_irrefl; reflexivity.
  - destruct fuel as [|fuel]; [cbn in Hfuel; lia|].
    cbn [fold_newlines].
    destruct (Z.of_nat (length pre) <? Z.of_nat (length pre + length (b :: mid))) eqn:E;
      [|apply Z.ltb_ge in E; cbn [length] in E; lia].
    set (s := Buf.mk (pre ++ (b :: mid) ++ post) acc).
    assert (Hb : Buf.cells s !! Z.to_nat (Z.of_nat (length pre)) = Some b).
    { rewrite Nat2Z.id. subst s. cbn [Buf.cells]. apply list_lookup_middle. reflexivity. }
    destruct (load_in_range s (Z.of_nat (length pre))) as (c & Hc & Hload).
    { subst s. cbn [Buf.cells]. rewrite !length_app. cbn [length]. lia. }
    rewrite Hb in Hc. injection Hc as <-.
    unfold Buf.bind at 1. rewrite Hload.
    assert (Hnext : forall acc1,
      exists acc', fold_newlines fuel (Z.of_nat (length pre + length (b :: mid)))
                     (Z.of_nat (length pre) + 1)
                     (Buf.mk (pre ++ newline_to_space b :: mid ++ post) acc1)
      = Some (tt, Buf.mk (pre ++ map newline_to_space (b :: mid) ++ post) acc')).
    { intros acc1.
      destruct (IH (pre ++ [newline_to_space b]) post acc1 fuel) as [acc' Hrun];
        [cbn in Hfuel; lia|].
      exists acc'. rewrite length_app in Hrun. cbn [length] in Hrun.
      rewrite <- !(assoc_L (++)) in Hrun. cbn [app] in Hrun.
      cbn [length map app].
      replace (Z.of_nat (length pre) + 1) with (Z.of_nat (length pre + 1)) by lia.
      replace (length pre + S (length mid))%nat
        with (length pre + 1 + length mid)%nat by lia.
      exact Hrun. }
    unfold newline_to_space at 1 in Hnext.
    destruct (decide (b = chr_nl)) as [->|Hne].
    + unfold Buf.bind at 1.
      rewrite store_in_range
        by (subst s; cbn [Buf.cells]; rewrite !length_app; cbn [length]; lia).
      subst s. cbn [Buf.cells Buf.accesses].
      rewrite Nat2Z.id.
      replace (<[length pre:=chr_space]> (pre ++ (chr_nl :: mid) ++ post))
        with (pre ++ chr_space :: mid ++ post).
      2:{ symmetry. rewrite insert_app_r_alt by lia.
          rewrite Nat.sub_diag. reflexivity. }
      apply Hnext.
    + unfold Buf.bind at 1. cbn [Buf.ret]. subst s. cbn [Buf.cells Buf.accesses].
      apply Hnext.
Qed.

(** The buffer [JournalHandler::handle] leaves behind and the call it
    makes, for an input of any length at the start of any array. *)
Lemma JournalHandler_handle_spec (input rest : list byte) :
  exists acc,
    JournalHandler_handle (Z.of_nat (length input)) (Buf.init (input ++ rest))
    = Some (mk_write 0 (Z.of_nat (length input)),
            Buf.mk (map newline_to_space input ++ rest) acc).
Proof.
  unfold JournalHandler_handle, Buf.init.
  destruct (fold_newlines_spec input [] rest [] (length input)) as [acc Hrun];
    [lia|].
  cbn [length app Nat.add] in Hrun. change (Z.of_nat 0) with 0 in Hrun.
  rewrite Nat2Z.id.
  exists acc. unfold Buf.bind. rewrite Hrun. reflexivity.
Qed.

(** C6: for every input buffer the journal handler forwards the input
    with each newline byte replaced by a space and every other byte
    unchanged, as many bytes as it was given; [line one\nline two] is
    forwarded as [line one line two]. *)
Theorem JournalHandler_folds_newlines :
  (forall input rest : list byte,
     exists r,
       run_handler JournalHandler (input ++ rest) (Z.of_nat (length input))
         = Some r /\
       h_forwarded r = map newline_to_space input /\
       length (h_forwarded r) = length input) /\
  (exists r,
     run_handler JournalHandler (stack_buf line_one_line_two)
                 (Z.of_nat (length line_one_line_two)) = Some r /\
     h_forwarded r = bytes "line one line two").
Proof.
  split.
  - intros input rest.
    destruct (JournalHandler_handle_spec input rest) as [acc Hrun].
    unfold run_handler, handle. rewrite Hrun.
    eexists. split; [reflexivity|].
    assert (Hfw : h_forwarded
                    (mk_handled (map newline_to_space input ++ rest) acc
                       (mk_write 0 (Z.of_nat (length input))))
                  = map newline_to_space input).
    { unfold h_forwarded, forwarded. cbn [h_cells h_call w_off w_len].
      change (Z.to_nat 0) with 0%nat. rewrite drop_0, Nat2Z.id.
      rewrite <- (length_map newline_to_space input). apply take_app_length. }
    cbn [Buf.cells Buf.accesses]. rewrite Hfw. split; [reflexivity|].
    apply length_map.
  - eexists. split; vm_compute; reflexivity.
Qed.

(** ** SocketReader::read *)

(** Every handler is defined on the first [len] bytes of a longer
    array and keeps the array's size. *)
Lemma run_handler_total (h : handler) (cs : list byte) (len : Z) :
  0 <= len < Z.of_nat (length cs) ->
  exists r, run_handler h cs len = Some r /\ length (h_cells r) = length cs.
Proof.
  intros Hlen. unfold run_handler, handle. destruct h.
  - destruct (SyslogHandler_handle_total len (Buf.init cs)) as (w & s' & Hrun & Hc);
      [cbn; lia|].
    rewrite Hrun. eexists. split; [reflexivity|]. exact Hc.
  - destruct (JournalHandler_handle_spec (take (Z.to_nat len) cs)
                (drop (Z.to_nat len) cs)) as [acc Hrun].
    rewrite take_drop, length_take, Nat.min_l, Z2Nat.id in Hrun by lia.
    rewrite Hrun. eexists. split; [reflexivity|]. cbn.
    rewrite length_app, length_map, length_take, length_drop. lia.
  - eexists. split; reflexivity.
Qed.

Lemma NELEMS_buf_pos : (0 < NELEMS_buf)%nat.
Proof. unfold NELEMS_buf. lia. Qed.

Lemma length_stack_buf (junk : list byte) : length (stack_buf junk) = NELEMS_buf.
Proof.
  unfold stack_buf. rewrite length_take, length_app, length_replicate. lia.
Qed.

(** What one [::read] does to the descriptor. *)
Lemma sys_read_step (count : nat) (d : descriptor) :
  forall len data d', sys_read count d = (len, data, d') ->
  (length data <= count)%nat /\
  (0 < len -> len = Z.of_nat (length data) /\ (reads_left d' < reads_left d)%nat).
Proof.
  intros len data d' H. destruct d as [[|b p] peer|[|m ms]]; cbn in H;
    injection H as <- <- <-; cbn [length reads_left].
  - split; [lia|]. destruct peer; lia.
  - split; [destruct count; cbn; [lia|rewrite length_take; lia]|].
    intros Hpos. split; [reflexivity|].
    destruct count; cbn in Hpos; [lia|].
    cbn [drop]. rewrite length_drop. lia.
  - split; lia.
  - split; [rewrite length_take; lia|]. intros _. split; [reflexivity|lia].
Qed.


(** The drain ends on every descriptor: each [::read] that returns
    data leaves fewer reads to come. *)
Lemma SocketReader_read_total (fuel : nat) :
  forall (h : handler) (d : descriptor) (buf : list byte),
  length buf = NELEMS_buf -> (reads_left d < fuel)%nat ->
  exists r, SocketReader_read fuel h d buf = Some r.
Proof.
  induction fuel as [|fuel IH]; intros h d buf Hbuf Hfuel; [lia|].
  cbn [SocketReader_read].
  destruct (sys_read (NELEMS_buf - 1) d) as [[len data] d'] eqn:Hread.
  destruct (sys_read_step _ _ _ _ _ Hread) as [Hdata Hstep].
  pose proof NELEMS_buf_pos as Hpos.
  assert (Hbuf' : length (data ++ drop (length data) buf) = NELEMS_buf).
  { rewrite length_app, length_drop. lia. }
  destruct (0 <? len) eqn:E; [|eexists; reflexivity].
  apply Z.ltb_lt in E. destruct (Hstep E) as [-> Hless].
  destruct (run_handler_total h (data ++ drop (length data) buf)
              (Z.of_nat (length data))) as (r & Hr & Hlen); [lia|].
  rewrite Hr.
  destruct (IH h d' (h_cells r)) as [rest Hrest]; [lia|lia|].
  rewrite Hrest. eexists; reflexivity.
Qed.






(** A datagram longer than the read size is cut: the bytes past
    [NELEMS(buf) - 1] never reach the handler. *)
Lemma oversized_datagram_is_cut :
  exists r,
    reader_read StreamHandler oversized_datagram [] = Some r /\
    d_chunks r = [replicate 2047 chr_space].
Proof. eexists. split; vm_compute; reflexivity. Qed.

(** ** SyslogHandler *)

(** The loop over the trailing newlines turns [n] of them into NULs
    and stops on the last byte of [body]. *)
Lemma trim_newlines_spec (n : nat) :
  forall (body rest : list byte) (acc : list Buf.access) (fuel : nat),
  body <> [] -> last body <> Some chr_nl -> (n < fuel)%nat ->
  exists acc',
    trim_newlines fuel (Z.of_nat (length body + n) - 1)
      (Buf.mk (body ++ replicate n chr_nl ++ rest) acc)
    = Some (Z.of_nat (length body) - 1,
            Buf.mk (body ++ replicate n chr_nul ++ rest) (acc ++ acc')).
Proof.
  induction n as [|n IH]; intros body rest acc fuel Hne Hlast Hfuel;
    (destruct fuel as [|fuel]; [lia|]); cbn [trim_newlines].
  - rewrite Nat.add_0_r. cbn [replicate app].
    destruct (0 <? Z.of_nat (length body) - 1) eqn:E;
      [|exists []; rewrite app_nil_r; reflexivity].
    apply Z.ltb_lt in E.
    set (s := Buf.mk (body ++ rest) acc).
    destruct (load_in_range s (Z.of_nat (length body) - 1)) as (c & Hc & Hload).
    { subst s. cbn. rewrite length_app. lia. }
    unfold Buf.bind. rewrite Hload.
    assert (Hcl : last body = Some c).
    { rewrite last_lookup. subst s. cbn in Hc.
      rewrite lookup_app_l in Hc by lia.
      rewrite <- Hc. f_equal. lia. }
    destruct (decide (c = chr_nl)) as [->|_]; [congruence|].
    eexists. reflexivity.
  - assert (Hlen : 0 < Z.of_nat (length body)).
    { destruct body; [congruence|cbn; lia]. }
    destruct (0 <? Z.of_nat (length body + S n) - 1) eqn:E;
      [|apply Z.ltb_ge in E; lia].
    rewrite replicate_S_end. rewrite <- (assoc_L (++) (replicate n chr_nl)).
    cbn [app].
    set (s := Buf.mk (body ++ replicate n chr_nl ++ chr_nl :: rest) acc).
    assert (Hidx : Z.to_nat (Z.of_nat (length body + S n) - 1) = (length body + n)%nat)
      by lia.
    assert (Hat : Buf.cells s !! (length body + n)%nat = Some chr_nl).
    { subst s. cbn. rewrite lookup_app_r by lia.
      rewrite lookup_app_r by (rewrite length_replicate; lia).
      rewrite length_replicate.
      replace (length body + n - length body - n)%nat with 0%nat by lia.
      reflexivity. }
    destruct (load_in_range s (Z.of_nat (length body + S n) - 1)) as (c & Hc & Hload).
    { subst s. cbn. rewrite !length_app, length_replicate. cbn. lia. }
    rewrite Hidx, Hat in Hc. injection Hc as <-.
    unfold Buf.bind at 1. rewrite Hload.
    destruct (decide (chr_nl = chr_nl)) as [_|Hc]; [|congruence].
    unfold Buf.bind at 1. rewrite store_in_range
      by (subst s; cbn; rewrite !length_app, length_replicate; cbn; lia).
    cbn [Buf.cells Buf.accesses]. subst s. cbn [Buf.cells Buf.accesses].
    rewrite Hidx.
    replace (<[(length body + n)%nat:=chr_nul]>
               (body ++ replicate n chr_nl ++ chr_nl :: rest))
      with (body ++ replicate n chr_nl ++ chr_nul :: rest).
    2:{ symmetry. rewrite insert_app_r_alt by lia.
        rewrite insert_app_r_alt by (rewrite length_replicate; lia).
        rewrite length_replicate.
        replace (length body + n - length body - n)%nat with 0%nat by lia.
        reflexivity. }
    match goal with |- context [trim_newlines fuel ?e (Buf.mk _ ?a)] =>
      destruct (IH body (chr_nul :: rest) a fuel Hne Hlast) as [acc' Hrun];
        [lia|];
      replace e with (Z.of_nat (length body + n) - 1) by lia
    end.
    rewrite Hrun. rewrite replicate_S_end, <- (assoc_L (++) (replicate n chr_nul)).
    cbn [app]. rewrite <- !(assoc_L (++) acc). eexists. reflexivity.
Qed.

(** An input without a priority tag: the handler passes on all of
    [body] but its last byte. *)
Lemma SyslogHandler_untagged (c : byte) (body' rest : list byte) (n : nat) :
  c <> chr_lt -> last (c :: body') <> Some chr_nl ->
  exists r,
    run_handler SyslogHandler ((c :: body') ++ replicate n chr_nl ++ rest)
                (Z.of_nat (length (c :: body') + n)) = Some r /\
    h_forwarded r = take (length body') (c :: body').
Proof.
  intros Hc Hlast. unfold run_handler, handle, SyslogHandler_handle, Buf.init.
  set (body := c :: body') in *.
  set (len := Z.of_nat (length body + n)).
  assert (Hpos : (0 <? len) = true) by (apply Z.ltb_lt; subst len body; cbn; lia).
  rewrite Hpos.
  unfold Buf.bind at 1 2. unfold Buf.load at 1. cbn [Z.to_nat Buf.cells].
  replace ((body ++ replicate n chr_nl ++ rest) !! 0%nat) with (Some c)
    by reflexivity.
  change (0 <=? 0) with true. cbv beta iota.
  destruct (decide (c = chr_lt)) as [|_]; [contradiction|].
  unfold Buf.ret at 1.
  destruct (trim_newlines_spec n body rest ([] ++ [Buf.Rd 0]) (S (Z.to_nat len)))
    as [acc' Hrun]; [subst body; discriminate|exact Hlast|subst len; lia|].
  unfold Buf.bind. cbn [Buf.accesses].
  subst len. rewrite Hrun. cbn [Buf.ret].
  eexists. split; [reflexivity|].
  unfold h_forwarded, forwarded. cbn [h_cells h_call w_off w_len Buf.cells].
  rewrite Z.sub_0_r. change (Z.to_nat 0) with 0%nat. rewrite drop_0.
  replace (Z.to_nat (Z.of_nat (length body) - 1)) with (length body') 
    by (subst body; cbn [length]; lia).
  rewrite take_app_le by (subst body; cbn [length]; lia).
  reflexivity.
Qed.

(** Over digits that run to the end of the input the loop stops with
    [start = len]. *)
Lemma skip_digits_all_digits (ds : list byte) :
  forall (pre rest : list byte) (acc : list Buf.access) (fuel : nat),
  pre <> [] -> Forall (fun d => isdigit d = true) ds -> (length ds < fuel)%nat ->
  exists acc',
    skip_digits fuel (Z.of_nat (length pre + length ds))
      (Z.of_nat (length pre) - 1) (Buf.mk (pre ++ ds ++ rest) acc)
    = Some (Z.of_nat (length pre + length ds),
            Buf.mk (pre ++ ds ++ rest) (acc ++ acc')).
Proof.
  induction ds as [|d ds IH]; intros pre rest acc fuel Hpre Hds Hfuel;
    (destruct fuel as [|fuel]; [cbn in Hfuel; lia|]); cbn [skip_digits].
  - replace (Z.of_nat (length pre) - 1 + 1) with (Z.of_nat (length pre)) by lia.
    cbn [length]. rewrite Nat.add_0_r, Z.ltb_irrefl.
    exists []. rewrite app_nil_r. reflexivity.
  - replace (Z.of_nat (length pre) - 1 + 1) with (Z.of_nat (length pre)) by lia.
    destruct (Z.of_nat (length pre) <? Z.of_nat (length pre + length (d :: ds))) eqn:E;
      [|apply Z.ltb_ge in E; cbn [length] in E; lia].
    set (s := Buf.mk (pre ++ (d :: ds) ++ rest) acc).
    destruct (load_in_range s (Z.of_nat (length pre))) as (c & Hc & Hload).
    { subst s. cbn [Buf.cells]. rewrite !length_app. cbn [length]. lia. }
    assert (c = d) as ->.
    { subst s. cbn [Buf.cells app] in Hc. rewrite Nat2Z.id in Hc.
      rewrite list_lookup_middle in Hc by reflexivity. congruence. }
    unfold Buf.bind. rewrite Hload.
    apply Forall_cons in Hds as [Hd Hds]. rewrite Hd.
    subst s. cbn [Buf.cells Buf.accesses].
    destruct (IH (pre ++ [d]) rest (acc ++ [Buf.Rd (Z.of_nat (length pre))]) fuel)
      as [acc' Hrun];
      [destruct pre; discriminate|exact Hds|cbn [length] in Hfuel; lia|].
    rewrite length_app in Hrun. cbn [length] in Hrun.
    rewrite <- !(assoc_L (++) pre) in Hrun. cbn [app] in Hrun.
    replace (Z.of_nat (length pre + 1) - 1) with (Z.of_nat (length pre)) in Hrun by lia.
    replace (length pre + 1 + length ds)%nat
      with (length pre + length (d :: ds))%nat in Hrun by (cbn [length]; lia).
    cbn [app]. rewrite Hrun. rewrite <- (assoc_L (++) acc). eexists. reflexivity.
Qed.

(** The loop over the trailing newlines only adds to the record of
    accesses. *)
Lemma trim_newlines_accesses (fuel : nat) :
  forall (end_ end' : Z) (s s' : Buf.state),
  trim_newlines fuel end_ s = Some (end', s') ->
  exists more, Buf.accesses s' = Buf.accesses s ++ more.
Proof.
  induction fuel as [|fuel IH]; intros end_ end' s s' H; [discriminate|].
  cbn [trim_newlines] in H.
  destruct (0 <? end_); [|injection H as <- <-; exists []; symmetry; apply app_nil_r].
  unfold Buf.bind at 1 in H. unfold Buf.load in H.
  destruct (0 <=? end_); [|discriminate].
  destruct (Buf.cells s !! Z.to_nat end_) as [c|]; [|discriminate].
  destruct (decide (c = chr_nl)).
  - unfold Buf.bind, Buf.store in H. cbn [Buf.cells Buf.accesses] in H.
    destruct (_ && _); [|discriminate].
    apply IH in H as [more Hmore]. cbn [Buf.accesses] in Hmore.
    rewrite Hmore, <- !(assoc_L (++)). eexists. reflexivity.
  - injection H as <- <-. cbn. eexists. reflexivity.
Qed.

(** A lone priority tag that runs to the end of the input: the handler
    looks at [buf[len]]. *)
Lemma SyslogHandler_lone_tag (ds rest : list byte) :
  Forall (fun d => isdigit d = true) ds -> rest <> [] ->
  exists r,
    run_handler SyslogHandler ((chr_lt :: ds) ++ rest)
                (Z.of_nat (length (chr_lt :: ds))) = Some r /\
    Buf.Rd (Z.of_nat (length (chr_lt :: ds))) ∈ h_accesses r.
Proof.
  intros Hds Hrest. unfold run_handler, handle, SyslogHandler_handle, Buf.init.
  set (len := Z.of_nat (length (chr_lt :: ds))).
  assert (Hpos : (0 <? len) = true) by (apply Z.ltb_lt; subst len; cbn; lia).
  rewrite Hpos.
  unfold Buf.bind at 1 2. unfold Buf.load at 1. cbn [Z.to_nat Buf.cells].
  replace (((chr_lt :: ds) ++ rest) !! 0%nat) with (Some chr_lt) by reflexivity.
  change (0 <=? 0) with true. cbv beta iota.
  destruct (decide (chr_lt = chr_lt)) as [_|Hc]; [|congruence].
  destruct (skip_digits_all_digits ds [chr_lt] rest ([] ++ [Buf.Rd 0])
              (Z.to_nat len)) as [acc1 Hskip];
    [discriminate|exact Hds|subst len; cbn [length]; lia|].
  cbn [length Nat.add app] in Hskip.
  change (Z.of_nat 1 - 1) with 0 in Hskip.
  unfold Buf.bind at 1. cbn [Buf.accesses app].
  change (Z.of_nat (S (length ds))) with len in Hskip.
  rewrite Hskip.
  set (s1 := Buf.mk (chr_lt :: ds ++ rest) (Buf.Rd 0 :: acc1)).
  destruct (load_in_range s1 len) as (c & _ & Hload).
  { subst s1 len. cbn [Buf.cells length]. rewrite length_app.
    destruct rest; [congruence|cbn [length]; lia]. }
  unfold Buf.bind at 1. rewrite Hload.
  set (s2 := Buf.mk (Buf.cells s1) (Buf.accesses s1 ++ [Buf.Rd len])).
  assert (Hthen : exists start,
    (if decide (c = chr_gt) then Buf.ret (len + 1) else Buf.ret len) s2
    = Some (start, s2)) by (destruct (decide _); eexists; reflexivity).
  destruct Hthen as [start ->].
  destruct (trim_newlines_total (S (Z.to_nat len)) (len - 1) s2)
    as (end' & s3 & Hrun & _ & _);
    [subst s2 s1 len; cbn [Buf.cells length]; rewrite length_app; lia|lia|].
  unfold Buf.bind. rewrite Hrun.
  apply trim_newlines_accesses in Hrun as [more Hmore].
  eexists. split; [reflexivity|]. cbn [h_accesses Buf.ret].
  rewrite Hmore. subst s2. cbn [Buf.accesses].
  apply elem_of_app. left. apply elem_of_app. right. apply list_elem_of_singleton.
  reflexivity.
Qed.

(** C1 (the code departs from it): the claim has [<13>hello\n]
    forwarded as [hello] and an untagged input forwarded whole up to its
    trailing newlines.  [SyslogHandler::handle] computes the length as
    [end - start] with [end] the index of the last byte kept, so the last
    byte is lost: [<13>hello\n] and [hello\n] are both forwarded as
    [hell], and the logger's file receives a newline and [hell]. *)
Theorem SyslogHandler_forwards_hell :
  (exists r,
     run_handler SyslogHandler (stack_buf hello_datagram)
                 (Z.of_nat (length hello_datagram)) = Some r /\
     h_call r = mk_write 4 4 /\
     h_forwarded r = bytes "hell") /\
  (exists r,
     run_handler SyslogHandler (stack_buf hello_untagged)
                 (Z.of_nat (length hello_untagged)) = Some r /\
     h_call r = mk_write 0 4 /\
     h_forwarded r = bytes "hell") /\
  (exists r,
     reader_read SyslogHandler (DgramFd [hello_datagram]) [] = Some r /\
     d_chunks r = [hello_datagram] /\
     d_written r = chr_nl :: bytes "hell").
Proof.
  repeat split; eexists; (split; [vm_compute; reflexivity|]);
    split; vm_compute; reflexivity.
Qed.

(** C10 (the code departs from it): the claim keeps every index the
    syslog handler touches inside [0, len).  When the input is [<]
    followed by digits up to its end, the loop over the digits stops at
    [start = len] and the test [buf[start] == '>'] that follows reads
    [buf[len]]; the array has room for it, the input does not. *)
Theorem SyslogHandler_lone_tag_reads_buf_len (ds rest : list byte) :
  Forall (fun d => isdigit d = true) ds -> rest <> [] ->
  exists r,
    run_handler SyslogHandler ((chr_lt :: ds) ++ rest)
                (Z.of_nat (length (chr_lt :: ds))) = Some r /\
    Buf.Rd (Z.of_nat (length (chr_lt :: ds))) ∈ h_accesses r /\
    ~ Forall (fun a => 0 <= Buf.index a < Z.of_nat (length (chr_lt :: ds)))
             (h_accesses r).
Proof.
  intros Hds Hrest.
  destruct (SyslogHandler_lone_tag ds rest Hds Hrest) as (r & Hr & Hin).
  exists r. split; [exact Hr|]. split; [exact Hin|].
  intros Hall. rewrite Forall_forall in Hall.
  specialize (Hall _ Hin). cbn [Buf.index] in Hall. lia.
Qed.

(** The input [<13] at the start of a 2048-byte array: [buf[3]] is read. *)
Lemma SyslogHandler_lone_tag_reads_buf_len_witness :
  exists r,
    run_handler SyslogHandler ((chr_lt :: bytes "13") ++ replicate 2045 chr_nul)
                (Z.of_nat (length (chr_lt :: bytes "13"))) = Some r /\
    Buf.Rd (Z.of_nat (length (chr_lt :: bytes "13"))) ∈ h_accesses r /\
    ~ Forall (fun a => 0 <= Buf.index a
                       < Z.of_nat (length (chr_lt :: bytes "13")))
             (h_accesses r).
Proof.
  apply (SyslogHandler_lone_tag_reads_buf_len (bytes "13") (replicate 2045 chr_nul)).
  - repeat constructor.
  - discriminate.
Defined.

(** ** The registry: addObserver and delObserver *)

(** C8: [delObserver] on a descriptor that is not a key of the registry
    returns normally and leaves the mapping as it was; the only thing it
    does is ask the epoll instance to forget the descriptor, so nothing
    at all changes when the descriptor is not watched either. *)
Theorem delObserver_absent_is_noop (w : world) (k : Z) :
  observers w !! k = None ->
  exists w',
    delObserver k w = Ok tt w' /\
    observers w' = observers w /\
    epoll_set w' = epoll_set w ∖ {[k]} /\
    open_fds w' = open_fds w /\
    (k ∉ epoll_set w -> w' = w).
Proof.
  intros Hk. unfold delObserver, epoll_delwatch, observers_erase.
  unfold Proc.bind, Proc.modify, Proc.get. cbn [observers set_epoll_set set_observers].
  rewrite Hk. eexists. split; [reflexivity|].
  cbn [observers epoll_set open_fds set_observers set_epoll_set].
  rewrite delete_id by exact Hk.
  repeat split.
  intros Hnot. destruct w; unfold set_observers, set_epoll_set; cbn in *.
  rewrite delete_id by exact Hk. f_equal. set_solver.
Qed.

(** Descriptor 7 when only descriptor 3 is registered. *)
Lemma delObserver_absent_is_noop_witness :
  exists w',
    delObserver 7 world_with_3 = Ok tt w' /\
    observers w' = observers world_with_3 /\
    epoll_set w' = epoll_set world_with_3 ∖ {[7]} /\
    open_fds w' = open_fds world_with_3 /\
    (7 ∉ epoll_set world_with_3 -> w' = world_with_3).
Proof. apply (delObserver_absent_is_noop world_with_3 7). reflexivity. Defined.

(** C2, as stated, fails: with the syslog observer registered on
    descriptor 3, [addObserver] of another observer whose key is 3 throws
    nothing and the entry under 3 becomes the new observer. *)
Lemma addObserver_duplicate_counterexample :
  is_Some (observers world_with_3 !! key journal_on_3) /\
  ~ register_rejects_duplicate world_with_3 journal_on_3 /\
  exists w', addObserver journal_on_3 world_with_3 = Ok tt w' /\
             observers world_with_3 !! 3 = Some syslog_on_3 /\
             observers w' !! 3 = Some journal_on_3.
Proof.
  split; [eexists; reflexivity|].
  split.
  - intros [Hthrow _]. vm_compute in Hthrow. exact Hthrow.
  - eexists. split; [reflexivity|]. split; reflexivity.
Qed.

(** C2, amended: when the observer's descriptor is already a key of the
    registry, [addObserver] returns normally, subscribes no descriptor to
    the epoll instance, and stores the given observer under that key in
    place of the one that was there; the other entries stay. *)
Theorem addObserver_duplicate_replaces (w : world) (o : observer) :
  is_Some (observers w !! key o) ->
  exists w',
    addObserver o w = Ok tt w' /\
    observers w' = <[key o := o]> (observers w) /\
    epoll_set w' ⊆ epoll_set w.
Proof.
  intros [old Hold]. unfold addObserver, observers_assign, epoll_addwatch.
  unfold Proc.bind, Proc.get, Proc.modify.
  destruct (decide (observers w !! key o = None)) as [Hnone|_]; [congruence|].
  cbn [Proc.ret]. rewrite Hold.
  destruct (decide (obj old = obj o)).
  - eexists. split; [reflexivity|]. split; [reflexivity|]. cbn. set_solver.
  - eexists. split; [reflexivity|]. split; [reflexivity|]. cbn. set_solver.
Qed.

(** A second observer on descriptor 3. *)
Lemma addObserver_duplicate_replaces_witness :
  exists w',
    addObserver journal_on_3 world_with_3 = Ok tt w' /\
    observers w' = <[key journal_on_3 := journal_on_3]> (observers world_with_3) /\
    epoll_set w' ⊆ epoll_set world_with_3.
Proof.
  apply (addObserver_duplicate_replaces world_with_3 journal_on_3).
  eexists; reflexivity.
Defined.

(** ** SocketObservable::stop *)

(** C7, as stated, fails: [stop] called with SIGTERM leaves a line on
    standard output, so it does more than set the flag. *)
Lemma stop_writes_output_counterexample :
  ~ stop_only_sets_flag SIGTERM start_world /\
  exists w', stop SIGTERM start_world = Ok tt w' /\
             out start_world = [] /\
             out w' = bytes "stopped signo = 15" ++ [chr_nl].
Proof.
  split.
  - unfold stop_only_sets_flag. intros H. vm_compute in H. discriminate H.
  - eexists. split; [reflexivity|]. split; reflexivity.
Qed.

(** C7, amended: [stop] writes the line [stopped signo = N] to standard
    output and sets [stopped]; the registry, the epoll interest list, the
    descriptors, the signal dispositions and standard error are left as
    they were. *)
Theorem stop_prints_then_sets_flag (signo : Z) (w : world) :
  exists w',
    stop signo w = Ok tt w' /\
    stopped w' = true /\
    out w' = out w ++ stop_message signo /\
    observers w' = observers w /\ epoll_set w' = epoll_set w /\
    open_fds w' = open_fds w /\ signals w' = signals w /\
    err w' = err w /\ next_obj w' = next_obj w /\ notified w' = notified w.
Proof. eexists. split; [reflexivity|]. repeat split. Qed.

(** ** A failing accept in StdoutObserver::notify *)

(** When [accept4] fails the constructor of [StreamObserver] throws, and
    nothing in [StdoutObserver::notify] catches it. *)
Lemma StdoutObserver_notify_accept_fails (o : observer) (r : os_response) (w : world) :
  r_accept r < 0 ->
  StdoutObserver_notify o r w = Throw (runtime_error "accept failed") w.
Proof.
  intros Hneg. unfold StdoutObserver_notify, StreamObserver_new, unix_accept.
  unfold Proc.bind at 1 2 3. unfold Proc.get.
  set (fd := if decide (sock_fd o ∈ open_fds w) then r_accept r else -1).
  assert (Hfd : fd < 0) by (subst fd; destruct (decide _); lia).
  destruct (0 <=? fd) eqn:E1; [apply Z.leb_le in E1; lia|].
  assert (E2 : (fd <? 0) = true) by (apply Z.ltb_lt; lia).
  unfold Proc.bind, Proc.ret, Proc.throw. rewrite E2. reflexivity.
Qed.

(** C3 (the code departs from it): the claim has a failed accept
    swallowed and the loop going on.  No connection observer is created
    or registered, but [runtime_error("accept failed")] leaves
    [StdoutObserver::notify], [loop] and [main]: with the three observers
    up, a readiness event on the listener whose accept fails ends the run
    before the datagram that follows is looked at.  The same happens when
    SIGTERM interrupts the wait that follows an accepted connection: [ev]
    still names the listener, [notify] is called again and the accept
    fails.  [main] does catch the constructors' exceptions of the three
    persistent observers. *)
Theorem accept_failure_leaves_the_loop :
  (exists w,
     main boot_all_ok accept_fails_then_datagram start_world
       = Throw (runtime_error "accept failed") w /\
     observers w
       = {[ 3 := mk_observer 0 SyslogObserver 3 SyslogHandler;
            4 := mk_observer 1 SocketObserver 4 JournalHandler;
            5 := mk_observer 2 StdoutObserver 5 StreamHandler ]} /\
     notified w = [mk_observer 2 StdoutObserver 5 StreamHandler] /\
     out w = []) /\
  (exists w,
     main boot_all_ok accept_then_sigterm start_world
       = Throw (runtime_error "accept failed") w /\
     stopped w = true).
Proof.
  split.
  - eexists. split; [vm_compute; reflexivity|]. repeat split; vm_compute; reflexivity.
  - eexists. split; [vm_compute; reflexivity|]. reflexivity.
Qed.

(** ** main builds the three persistent observers *)

(** [unix_open] never throws. *)
Lemma unix_open_returns (r : open_response) (w : world) :
  exists fd w1, unix_open r w = Ok fd w1.
Proof.
  unfold unix_open. destruct (0 <=? o_socket r); [|eexists _, _; reflexivity].
  unfold Proc.bind, Proc.modify. destruct (o_bind r <? 0); eexists _, _; reflexivity.
Qed.

Lemma SyslogObserver_new_shape reader r w :
  SyslogObserver_new reader r w = persistent_new SyslogObserver reader r w.
Proof.
  unfold SyslogObserver_new, persistent_new, Proc.bind at 1.
  destruct (unix_open_returns r w) as (fd & w1 & ->).
  destruct (fd <? 0); reflexivity.
Qed.

Lemma SocketObserver_new_shape reader r w :
  SocketObserver_new reader r w = persistent_new SocketObserver reader r w.
Proof.
  unfold SocketObserver_new, persistent_new, Proc.bind at 1.
  destruct (unix_open_returns r w) as (fd & w1 & ->).
  destruct (fd <? 0); reflexivity.
Qed.

Lemma StdoutObserver_new_shape reader r w :
  StdoutObserver_new reader r w = persistent_new StdoutObserver reader r w.
Proof.
  unfold StdoutObserver_new, persistent_new, Proc.bind at 1.
  destruct (unix_open_returns r w) as (fd & w1 & ->).
  destruct (fd <? 0); reflexivity.
Qed.


Lemma try_block_ext (new1 new2 : Proc.M observer) (w : world) :
  (forall w0, new1 w0 = new2 w0) -> try_block new1 w = try_block new2 w.
Proof.
  intros H. unfold try_block, Proc.try_catch, Proc.bind. rewrite H. reflexivity.
Qed.

(** [main] up to [loop] is three such blocks in a row. *)
Lemma main_observers_blocks (b : boot) (w : world) :
  main_observers b w =
  Proc.bind (try_block (persistent_new SyslogObserver SyslogHandler (b_syslog b)))
    (fun _ => Proc.bind
       (try_block (persistent_new SocketObserver JournalHandler (b_journal b)))
       (fun _ => try_block (persistent_new StdoutObserver StreamHandler (b_stdout b)))) w.
Proof.
  unfold main_observers, Proc.bind.
  change (Proc.try_catch (fun w0 => match SyslogObserver_new SyslogHandler (b_syslog b) w0 with
                                   | Ok a w' => addObserver a w'
                                   | Throw e w' => Throw e w'
                                   | Undefined => Undefined end) report w)
    with (try_block (SyslogObserver_new SyslogHandler (b_syslog b)) w).
  rewrite (try_block_ext _ _ w (SyslogObserver_new_shape _ _)).
  destruct (try_block _ w) as [[] w1| |]; [|reflexivity..].
  change (Proc.try_catch (fun w0 => match SocketObserver_new JournalHandler (b_journal b) w0 with
                                   | Ok a w' => addObserver a w'
                                   | Throw e w' => Throw e w'
                                   | Undefined => Undefined end) report w1)
    with (try_block (SocketObserver_new JournalHandler (b_journal b)) w1).
  rewrite (try_block_ext _ _ w1 (SocketObserver_new_shape _ _)).
  destruct (try_block _ w1) as [[] w2| |]; [|reflexivity..].
  change (Proc.try_catch (fun w0 => match StdoutObserver_new StreamHandler (b_stdout b) w0 with
                                   | Ok a w' => addObserver a w'
                                   | Throw e w' => Throw e w'
                                   | Undefined => Undefined end) report w2)
    with (try_block (StdoutObserver_new StreamHandler (b_stdout b)) w2).
  apply try_block_ext, StdoutObserver_new_shape.
Qed.



(** ** A stream connection is notified once *)

Lemma stream_notifications_app (log : list observer) (o : observer) :
  stream_notifications (log ++ [o]) =
  stream_notifications log ++
    (if decide (cls o = StreamObserver) then [obj o] else []).
Proof.
  unfold stream_notifications. rewrite filter_app, map_app. f_equal.
  rewrite filter_cons, filter_nil. destruct (decide _); reflexivity.
Qed.

Lemma registry_inv_empty : registry_inv ∅ 0 [].
Proof.
  constructor; try (intros; simplify_map_eq; fail).
  - intros o Ho. inversion Ho.
  - constructor.
Qed.

(** Registering a freshly made object keeps the invariant, also when
    it takes the place of an entry. *)
Lemma registry_inv_insert m n log c fd reader :
  registry_inv m n log ->
  registry_inv (<[fd := mk_observer n c fd reader]> m) (S n) log.
Proof.
  intros [Hkey Hbound Hlog Hinj Hpend Honce]. constructor.
  - intros k o Hk. apply lookup_insert_Some in Hk as [[<- <-]|[_ Hk]]; eauto.
  - intros k o Hk. apply lookup_insert_Some in Hk as [[<- <-]|[_ Hk]]; cbn;
      [lia|]. specialize (Hbound _ _ Hk). lia.
  - intros o Ho. specialize (Hlog _ Ho). lia.
  - intros k1 k2 o1 o2 H1 H2 Heq.
    apply lookup_insert_Some in H1 as [[<- <-]|[Hn1 H1]];
      apply lookup_insert_Some in H2 as [[<- <-]|[Hn2 H2]]; cbn in Heq.
    + reflexivity.
    + specialize (Hbound _ _ H2). lia.
    + specialize (Hbound _ _ H1). lia.
    + eauto.
  - intros k o Hk Hc. apply lookup_insert_Some in Hk as [[<- <-]|[_ Hk]]; eauto.
    cbn. intros Hin. unfold stream_notifications in Hin.
    apply list_elem_of_fmap in Hin as (o' & Heq & Hin').
    apply list_elem_of_filter in Hin' as [_ Hin'].
    specialize (Hlog _ Hin'). lia.
  - exact Honce.
Qed.

Lemma registry_inv_delete m n log k :
  registry_inv m n log -> registry_inv (delete k m) n log.
Proof.
  intros [Hkey Hbound Hlog Hinj Hpend Honce]. constructor; try assumption.
  - intros k' o Hk. apply lookup_delete_Some in Hk as [_ Hk]. eauto.
  - intros k' o Hk. apply lookup_delete_Some in Hk as [_ Hk]. eauto.
  - intros k1 k2 o1 o2 H1 H2.
    apply lookup_delete_Some in H1 as [_ H1].
    apply lookup_delete_Some in H2 as [_ H2]. eauto.
  - intros k' o Hk. apply lookup_delete_Some in Hk as [_ Hk]. eauto.
Qed.

(** Logging the call on a registered observer that stays registered. *)
Lemma registry_inv_log_other m n log k o :
  registry_inv m n log -> m !! k = Some o -> cls o <> StreamObserver ->
  registry_inv m n (log ++ [o]).
Proof.
  intros [Hkey Hbound Hlog Hinj Hpend Honce] Hk Hc. constructor; try assumption.
  - intros o' Ho'. apply elem_of_app in Ho' as [Ho'|Ho']; [eauto|].
    apply list_elem_of_singleton in Ho' as ->. eauto.
  - intros k' o' Hk' Hc'. rewrite stream_notifications_app.
    destruct (decide (cls o = StreamObserver)); [contradiction|].
    rewrite app_nil_r. eauto.
  - rewrite stream_notifications_app.
    destruct (decide (cls o = StreamObserver)); [contradiction|].
    rewrite app_nil_r. exact Honce.
Qed.

(** Logging the call on a registered stream observer, which the call
    removes from the registry. *)
Lemma registry_inv_log_stream m n log k o :
  registry_inv m n log -> m !! k = Some o -> cls o = StreamObserver ->
  registry_inv (delete (sock_fd o) m) n (log ++ [o]).
Proof.
  intros Hinv Hk Hc.
  pose proof (registry_inv_delete m n log (sock_fd o) Hinv) as Hdel.
  destruct Hinv as [Hkey Hbound Hlog Hinj Hpend Honce].
  destruct Hdel as [Hkey' Hbound' _ Hinj' Hpend' _].
  assert (Hfd : sock_fd o = k) by eauto.
  constructor; try assumption.
  - intros o' Ho'. apply elem_of_app in Ho' as [Ho'|Ho']; [eauto|].
    apply list_elem_of_singleton in Ho' as ->. eauto.
  - intros k' o' Hk' Hc'. rewrite stream_notifications_app.
    destruct (decide (cls o = StreamObserver)); [|contradiction].
    intros Hin. apply elem_of_app in Hin as [Hin|Hin].
    + exact (Hpend' _ _ Hk' Hc' Hin).
    + apply list_elem_of_singleton in Hin.
      apply lookup_delete_Some in Hk' as [Hne Hk'].
      apply Hne. rewrite Hfd. symmetry. eapply Hinj; eauto.
  - rewrite stream_notifications_app.
    destruct (decide (cls o = StreamObserver)); [|contradiction].
    apply NoDup_app. split; [exact Honce|]. split; [|apply NoDup_singleton].
    intros x Hx Hx'. apply list_elem_of_singleton in Hx' as ->.
    exact (Hpend _ _ Hk Hc Hx).
Qed.

Lemma world_inv_same (w w' : world) :
  same_registry w w' -> world_inv w -> world_inv w'.
Proof. unfold world_inv. intros (-> & -> & ->). trivial. Qed.

Lemma addObserver_registry (o : observer) (w : world) :
  exists w',
    addObserver o w = Ok tt w' /\
    observers w' = <[key o := o]> (observers w) /\
    next_obj w' = next_obj w /\ notified w' = notified w.
Proof.
  unfold addObserver, observers_assign, epoll_addwatch.
  unfold Proc.bind, Proc.get, Proc.modify.
  destruct (decide (observers w !! key o = None)) as [Hnone|Hsome].
  - destruct (decide (key o ∈ open_fds w)); cbn; rewrite Hnone;
      eexists; (split; [reflexivity|]); repeat split.
  - cbn [Proc.ret]. destruct (observers w !! key o) as [old|]; [|congruence].
    destruct (decide (obj old = obj o));
      eexists; (split; [reflexivity|]); repeat split.
Qed.

Lemma delObserver_registry (k : Z) (w : world) :
  exists w',
    delObserver k w = Ok tt w' /\
    observers w' = delete k (observers w) /\
    next_obj w' = next_obj w /\ notified w' = notified w /\
    out w' = out w /\
    (k ∉ epoll_set w') /\
    (forall o, observers w !! k = Some o -> sock_fd o ∉ open_fds w').
Proof.
  unfold delObserver, epoll_delwatch, observers_erase.
  unfold Proc.bind, Proc.get, Proc.modify. cbn [observers set_epoll_set].
  destruct (observers w !! k) as [old|].
  - eexists. split; [reflexivity|]. cbn.
    repeat split; [set_solver|]. intros o [= ->]. set_solver.
  - eexists. split; [reflexivity|]. cbn.
    repeat split; [set_solver|]. discriminate.
Qed.

Lemma ReaderInterface_read_returns (reader : handler) (fd : Z)
    (r : os_response) (w : world) :
  exists bs, ReaderInterface_read reader fd r w = Ok tt (put_out bs w).
Proof.
  unfold ReaderInterface_read, reader_read.
  match goal with |- context [SocketReader_read ?f ?h ?d ?b] =>
    destruct (SocketReader_read_total f h d b) as [dr Hdr] end;
    [apply length_stack_buf|lia|].
  rewrite Hdr. eexists. reflexivity.
Qed.

Lemma StreamObserver_new_registry (listen_sock : Z) (reader : handler)
    (r : os_response) (w : world) :
  match StreamObserver_new listen_sock reader r w with
  | Ok o w' =>
      (exists fd, o = mk_observer (next_obj w) StreamObserver fd reader) /\
      observers w' = observers w /\ next_obj w' = S (next_obj w) /\
      notified w' = notified w
  | Throw _ w' => same_registry w w'
  | Undefined => False
  end.
Proof.
  unfold StreamObserver_new, unix_accept.
  unfold Proc.bind at 1 2 3. unfold Proc.get.
  set (fd := if decide (listen_sock ∈ open_fds w) then r_accept r else -1).
  destruct (0 <=? fd) eqn:E1.
  - unfold Proc.modify, Proc.ret.
    assert ((fd <? 0) = false) as -> by (apply Z.ltb_ge; apply Z.leb_le in E1; lia).
    cbn. split; [eexists; reflexivity|]. repeat split.
  - unfold Proc.ret.
    assert ((fd <? 0) = true) as -> by (apply Z.ltb_lt; apply Z.leb_gt in E1; lia).
    cbn. repeat split.
Qed.

(** [notify] on a registered observer, after the call was logged. *)
Lemma notify_preserves_inv (k : Z) (o : observer) (r : os_response) (w : world) :
  world_inv w -> observers w !! k = Some o ->
  ends_in world_inv (notify o r (log_notify o w)).
Proof.
  intros Hinv Hk. unfold notify.
  destruct (cls o) eqn:Hc.
  - unfold SyslogObserver_notify.
    destruct (ReaderInterface_read_returns (_reader o) (sock_fd o) r (log_notify o w))
      as [bs ->]. cbn. unfold world_inv. cbn.
    eapply registry_inv_log_other; eauto. congruence.
  - unfold SocketObserver_notify.
    destruct (ReaderInterface_read_returns (_reader o) (sock_fd o) r (log_notify o w))
      as [bs ->]. cbn. unfold world_inv. cbn.
    eapply registry_inv_log_other; eauto. congruence.
  - unfold StreamObserver_notify, Proc.bind.
    destruct (ReaderInterface_read_returns (_reader o) (sock_fd o) r (log_notify o w))
      as [bs ->].
    destruct (delObserver_registry (sock_fd o) (put_out bs (log_notify o w)))
      as (w' & -> & Ho & Hn & Hl & _).
    cbn. unfold world_inv. rewrite Ho, Hn, Hl. cbn.
    eapply registry_inv_log_stream; eauto.
  - unfold StdoutObserver_notify, Proc.bind.
    pose proof (StreamObserver_new_registry (sock_fd o) (_reader o) r (log_notify o w))
      as Hnew.
    assert (Hinv' : world_inv (log_notify o w)).
    { unfold world_inv. cbn. eapply registry_inv_log_other; eauto. congruence. }
    destruct (StreamObserver_new _ _ _ _) as [so w1|e w1|]; [| |exact Hnew].
    + destruct Hnew as ([fd ->] & Ho & Hn & Hl).
      match goal with |- context [addObserver ?x w1] =>
        destruct (addObserver_registry x w1) as (w2 & -> & Ho2 & Hn2 & Hl2) end.
      cbn. unfold world_inv. rewrite Ho2, Hn2, Hl2, Ho, Hn, Hl. cbn [key sock_fd].
      apply registry_inv_insert. exact Hinv'.
    + cbn. eapply world_inv_same; eauto.
Qed.

Lemma dispatch_preserves_inv (fd : Z) (r : os_response) (w : world) :
  world_inv w -> ends_in world_inv (dispatch fd r w).
Proof.
  intros Hinv. unfold dispatch, Proc.bind at 1. unfold Proc.get.
  destruct (observers w !! fd) as [o|] eqn:Hfd; [|exact Hinv].
  unfold Proc.bind, Proc.modify. eapply notify_preserves_inv; eauto.
Qed.

Lemma stop_same_registry (signo : Z) (w : world) :
  exists w', stop signo w = Ok tt w' /\ same_registry w w'.
Proof. eexists. split; [reflexivity|]. repeat split. Qed.

Lemma deliver_same_registry (signo : option Z) (w : world) :
  exists w', deliver signo w = Ok tt w' /\ same_registry w w'.
Proof.
  unfold deliver, Proc.bind, Proc.get.
  destruct signo as [n|]; [|eexists; split; [reflexivity|repeat split]].
  destruct (signals w !! n) as [[]|];
    try (eexists; split; [reflexivity|repeat split]).
Qed.

Lemma ends_in_bind {A B} (P : world -> Prop) (m : Proc.M A) (k : A -> Proc.M B)
    (w : world) :
  ends_in P (m w) ->
  (forall a w', P w' -> ends_in P (k a w')) ->
  ends_in P (Proc.bind m k w).
Proof.
  intros Hm Hk. unfold Proc.bind. destruct (m w); cbn in *; auto.
Qed.

(** A signal that arrives during a callback touches the flag and
    standard output, nothing else. *)
Lemma arrive_frame (base : nat) (a : Z * nat) (w : world) :
  observers (arrive base a w) = observers w /\
  epoll_set (arrive base a w) = epoll_set w /\
  open_fds (arrive base a w) = open_fds w /\
  signals (arrive base a w) = signals w /\
  err (arrive base a w) = err w /\
  next_obj (arrive base a w) = next_obj w /\
  notified (arrive base a w) = notified w.
Proof. unfold arrive. destruct (caught a.1 w); repeat split. Qed.

(** What every arriving signal keeps, the callback they arrive during
    ends with. *)
Lemma during_ends_in (P : world -> Prop) (asyncs : list (Z * nat))
    (m : Proc.M unit) (w : world) :
  (forall base a v, P v -> P (arrive base a v)) ->
  ends_in P (m w) -> ends_in P (during asyncs m w).
Proof.
  intros Hkeep Hm. unfold during.
  assert (Hfold : forall v, P v ->
            P (foldl (fun v a => arrive (length (out w)) a v) v asyncs)).
  { induction asyncs as [|a asyncs IH]; intros v Hv; cbn [foldl]; auto. }
  destruct (m w); cbn in *; auto.
Qed.

Lemma arrive_preserves_inv (base : nat) (a : Z * nat) (w : world) :
  world_inv w -> world_inv (arrive base a w).
Proof.
  intros Hinv. destruct (arrive_frame base a w) as (Ho & _ & _ & _ & _ & Hn & Hl).
  eapply world_inv_same; [|exact Hinv]. repeat split; assumption.
Qed.

(** The invariant holds in whatever world a run of the loop ends. *)
Lemma loop_from_preserves_inv (es : list os_event) :
  forall (ev : Z) (w : world),
  world_inv w -> ends_in world_inv (loop_from es ev w).
Proof.
  induction es as [|e es IH]; intros ev w Hinv; cbn [loop_from].
  - destruct (stopped w); exact Hinv.
  - destruct (stopped w); [exact Hinv|].
    destruct (e_wait e) as [fd|signo|].
    + apply ends_in_bind.
      * apply during_ends_in; [apply arrive_preserves_inv|].
        apply dispatch_preserves_inv, Hinv.
      * intros _ w' Hw'. apply IH, Hw'.
    + destruct (ends_wait signo w); [|apply IH, Hinv].
      destruct (deliver_same_registry signo w) as (w1 & Hd & Hsame).
      unfold Proc.bind at 1. rewrite Hd.
      apply ends_in_bind.
      * apply during_ends_in; [apply arrive_preserves_inv|].
        apply dispatch_preserves_inv; eapply world_inv_same; eauto.
      * intros _ w' Hw'. apply IH, Hw'.
    + exact Hinv.
Qed.

Lemma loop_preserves_inv (ev0 : Z) (es : list os_event) (w : world) :
  world_inv w -> ends_in world_inv (loop ev0 es w).
Proof.
  intros Hinv. unfold loop, Proc.bind, Proc.modify.
  apply loop_from_preserves_inv. exact Hinv.
Qed.

Lemma try_block_preserves_inv (c : observer_class) (reader : handler)
    (r : open_response) (w : world) :
  world_inv w ->
  exists w', try_block (persistent_new c reader r) w = Ok tt w' /\ world_inv w'.
Proof.
  intros Hinv.
  unfold try_block, Proc.try_catch, Proc.bind, persistent_new.
  assert (Hopen : exists fd w1, unix_open r w = Ok fd w1 /\ same_registry w w1).
  { unfold unix_open. destruct (0 <=? o_socket r);
      [|eexists _, _; split; [reflexivity|repeat split]].
    unfold Proc.bind, Proc.modify.
    destruct (o_bind r <? 0); eexists _, _; (split; [reflexivity|repeat split]). }
  destruct Hopen as (fd & w1 & -> & Hsame).
  pose proof (world_inv_same _ _ Hsame Hinv) as Hinv1.
  destruct (fd <? 0).
  - eexists. split; [reflexivity|]. exact Hinv1.
  - unfold new_object, Proc.bind, Proc.get, Proc.modify, Proc.ret.
    match goal with |- context [addObserver ?x ?v] =>
      destruct (addObserver_registry x v) as (w2 & -> & Ho2 & Hn2 & Hl2) end.
    eexists. split; [reflexivity|].
    unfold world_inv. rewrite Ho2, Hn2, Hl2. cbn.
    apply registry_inv_insert. exact Hinv1.
Qed.

Lemma main_preserves_inv (b : boot) (es : list os_event) :
  ends_in world_inv (main b es start_world).
Proof.
  unfold main. apply ends_in_bind.
  - rewrite main_observers_blocks.
    assert (H0 : world_inv start_world) by exact registry_inv_empty.
    destruct (try_block_preserves_inv SyslogObserver SyslogHandler (b_syslog b) _ H0)
      as (w1 & Hr1 & H1).
    destruct (try_block_preserves_inv SocketObserver JournalHandler (b_journal b) _ H1)
      as (w2 & Hr2 & H2).
    destruct (try_block_preserves_inv StdoutObserver StreamHandler (b_stdout b) _ H2)
      as (w3 & Hr3 & H3).
    unfold Proc.bind at 1. rewrite Hr1. unfold Proc.bind. rewrite Hr2, Hr3. exact H3.
  - intros _ w Hw. apply ends_in_bind; [apply loop_preserves_inv, Hw|].
    intros _ w' Hw'. exact Hw'.
Qed.

(** C4: [notify] on a registered [StreamObserver] returns with the
    observer out of the registry, its descriptor out of the interest list
    and closed, whatever the descriptor holds and whether or not the peer
    is still there; and in every run of [main], over any sequence of
    events, no [StreamObserver] object receives [notify] twice, and none
    that is still registered has received it. *)
Theorem stream_connection_is_one_shot :
  (forall (w : world) (o : observer) (r : os_response),
     cls o = StreamObserver -> observers w !! sock_fd o = Some o ->
     exists w',
       notify o r w = Ok tt w' /\
       observers w' !! sock_fd o = None /\
       (sock_fd o ∉ epoll_set w') /\
       (sock_fd o ∉ open_fds w')) /\
  (forall (b : boot) (es : list os_event),
     exists w,
       world_of (main b es start_world) = Some w /\
       NoDup (stream_notifications (notified w)) /\
       (forall k o, observers w !! k = Some o -> cls o = StreamObserver ->
                    obj o ∉ stream_notifications (notified w))).
Proof.
  split.
  - intros w o r Hc Hreg. unfold notify. rewrite Hc.
    unfold StreamObserver_notify, Proc.bind.
    destruct (ReaderInterface_read_returns (_reader o) (sock_fd o) r w) as [bs ->].
    destruct (delObserver_registry (sock_fd o) (put_out bs w))
      as (w' & -> & Ho & _ & _ & _ & Hep & Hcl).
    exists w'. split; [reflexivity|]. split; [|split].
    + rewrite Ho. apply lookup_delete_eq.
    + exact Hep.
    + apply Hcl. exact Hreg.
  - intros b es. pose proof (main_preserves_inv b es) as H.
    destruct (main b es start_world) as [z w|e w|]; cbn in H; [| |contradiction];
      exists w; (split; [reflexivity|]); destruct H; split; assumption.
Qed.

(** The connection on descriptor 6 has two bytes queued and its peer
    still connected. *)
Lemma stream_connection_is_one_shot_witness :
  exists w',
    notify stream_on_6 (mk_resp (StreamFd (bytes "hi") true) [] (-1)) world_with_6
      = Ok tt w' /\
    observers w' !! sock_fd stream_on_6 = None /\
    (sock_fd stream_on_6 ∉ epoll_set w') /\
    (sock_fd stream_on_6 ∉ open_fds w').
Proof.
  apply (proj1 stream_connection_is_one_shot world_with_6 stream_on_6).
  - reflexivity.
  - reflexivity.
Defined.

(* ================================================================== *)
(** * Further properties of the code *)

(** What [JournalHandler::handle] forwards and what it leaves in the
    array. *)
Lemma JournalHandler_folds_newlines_general (input rest : list byte) :
  exists r,
    run_handler JournalHandler (input ++ rest) (Z.of_nat (length input)) = Some r /\
    h_forwarded r = map newline_to_space input /\
    h_cells r = map newline_to_space input ++ rest.
Proof.
  destruct (JournalHandler_handle_spec input rest) as [acc Hrun].
  unfold run_handler, handle. rewrite Hrun.
  eexists. split; [reflexivity|]. split; [|reflexivity].
  unfold h_forwarded, forwarded. cbn [h_cells h_call w_off w_len Buf.cells].
  change (Z.to_nat 0) with 0%nat. rewrite drop_0, Nat2Z.id.
  rewrite <- (length_map newline_to_space input). apply take_app_length.
Qed.

(** [delObserver] on a key that is neither registered nor watched. *)
Lemma delObserver_absent_is_noop_general (w : world) (k : Z) :
  observers w !! k = None ->
  exists w', delObserver k w = Ok tt w' /\ (k ∉ epoll_set w -> w' = w).
Proof.
  intros Hk. unfold delObserver, epoll_delwatch, observers_erase.
  unfold Proc.bind, Proc.modify, Proc.get. cbn [observers set_epoll_set].
  rewrite Hk. eexists. split; [reflexivity|].
  intros Hnot. destruct w; unfold set_observers, set_epoll_set; cbn in *.
  rewrite delete_id by exact Hk. f_equal. set_solver.
Qed.

(** The digits are followed by a byte that is not one: the loop stops
    on that byte. *)
Lemma skip_digits_stops (ds : list byte) :
  forall (pre tail : list byte) (x : byte) (acc : list Buf.access) (fuel : nat),
  pre <> [] -> Forall (fun d => isdigit d = true) ds -> isdigit x = false ->
  (length ds < fuel)%nat ->
  forall len, Z.of_nat (length pre + length ds) < len ->
  exists acc',
    skip_digits fuel len (Z.of_nat (length pre) - 1)
      (Buf.mk (pre ++ ds ++ x :: tail) acc)
    = Some (Z.of_nat (length pre + length ds),
            Buf.mk (pre ++ ds ++ x :: tail) (acc ++ acc')).
Proof.
  induction ds as [|d ds IH]; intros pre tail x acc fuel Hpre Hds Hx Hfuel len Hlen;
    (destruct fuel as [|fuel]; [cbn in Hfuel; lia|]); cbn [skip_digits];
    replace (Z.of_nat (length pre) - 1 + 1) with (Z.of_nat (length pre)) by lia;
    (destruct (Z.of_nat (length pre) <? len) eqn:E;
      [|apply Z.ltb_ge in E; cbn [length] in Hlen; lia]).
  - set (s := Buf.mk (pre ++ [] ++ x :: tail) acc).
    destruct (load_in_range s (Z.of_nat (length pre))) as (c & Hc & Hload).
    { subst s. cbn [Buf.cells]. rewrite !length_app. cbn [length]. lia. }
    assert (c = x) as ->.
    { subst s. cbn [Buf.cells app] in Hc. rewrite Nat2Z.id in Hc.
      rewrite list_lookup_middle in Hc by reflexivity. congruence. }
    unfold Buf.bind. rewrite Hload, Hx. cbn [length]. rewrite Nat.add_0_r.
    eexists. reflexivity.
  - set (s := Buf.mk (pre ++ (d :: ds) ++ x :: tail) acc).
    destruct (load_in_range s (Z.of_nat (length pre))) as (c & Hc & Hload).
    { subst s. cbn [Buf.cells]. rewrite !length_app. cbn [length]. lia. }
    assert (c = d) as ->.
    { subst s. cbn [Buf.cells app] in Hc. rewrite Nat2Z.id in Hc.
      rewrite list_lookup_middle in Hc by reflexivity. congruence. }
    unfold Buf.bind. rewrite Hload.
    apply Forall_cons in Hds as [Hd Hds]. rewrite Hd.
    subst s. cbn [Buf.cells Buf.accesses].
    destruct (IH (pre ++ [d]) tail x (acc ++ [Buf.Rd (Z.of_nat (length pre))]) fuel)
      with (len := len) as [acc' Hrun];
      [destruct pre; discriminate|exact Hds|exact Hx|cbn [length] in Hfuel; lia
      |rewrite length_app; cbn [length] in *; lia|].
    rewrite length_app in Hrun. cbn [length] in Hrun.
    rewrite <- !(assoc_L (++) pre) in Hrun. cbn [app] in Hrun.
    replace (Z.of_nat (length pre + 1) - 1) with (Z.of_nat (length pre)) in Hrun by lia.
    replace (length pre + 1 + length ds)%nat
      with (length pre + length (d :: ds))%nat in Hrun by (cbn [length]; lia).
    cbn [app]. rewrite Hrun. rewrite <- (assoc_L (++) acc). eexists. reflexivity.
Qed.

(** A complete priority tag [<digits>] in front of [body]: the call
    the handler makes and the array it leaves.  [body] may be empty. *)
Lemma SyslogHandler_tag_call (ds body rest : list byte) (n : nat) :
  Forall (fun d => isdigit d = true) ds ->
  last (chr_gt :: body) <> Some chr_nl ->
  exists r,
    run_handler SyslogHandler
      ((chr_lt :: ds ++ chr_gt :: body) ++ replicate n chr_nl ++ rest)
      (Z.of_nat (length (chr_lt :: ds ++ chr_gt :: body) + n)) = Some r /\
    h_call r = mk_write (Z.of_nat (length ds) + 2) (Z.of_nat (length body) - 1) /\
    h_cells r = (chr_lt :: ds ++ chr_gt :: body) ++ replicate n chr_nul ++ rest.
Proof.
  intros Hds Hlast. unfold run_handler, handle, SyslogHandler_handle, Buf.init.
  set (whole := chr_lt :: ds ++ chr_gt :: body).
  set (len := Z.of_nat (length whole + n)).
  assert (Hwhole : length whole = (length ds + 2 + length body)%nat).
  { subst whole. cbn [length]. rewrite length_app. cbn [length]. lia. }
  assert (Hpos : (0 <? len) = true) by (apply Z.ltb_lt; subst len; lia).
  rewrite Hpos.
  unfold Buf.bind at 1 2. unfold Buf.load at 1. cbn [Z.to_nat Buf.cells].
  replace ((whole ++ replicate n chr_nl ++ rest) !! 0%nat) with (Some chr_lt)
    by reflexivity.
  change (0 <=? 0) with true. cbv beta iota.
  destruct (decide (chr_lt = chr_lt)) as [_|Hc]; [|congruence].
  assert (Hcells : whole ++ replicate n chr_nl ++ rest
                   = [chr_lt] ++ ds ++ chr_gt :: (body ++ replicate n chr_nl ++ rest)).
  { subst whole. cbn [app]. rewrite <- (assoc_L (++) ds). reflexivity. }
  destruct (skip_digits_stops ds [chr_lt] (body ++ replicate n chr_nl ++ rest)
              chr_gt ([] ++ [Buf.Rd 0]) (Z.to_nat len)) with (len := len)
    as [acc1 Hskip];
    [discriminate|exact Hds|reflexivity|subst len; lia
    |subst len; cbn [length]; lia|].
  cbn [length Nat.add] in Hskip. change (Z.of_nat 1 - 1) with 0 in Hskip.
  rewrite <- Hcells in Hskip.
  cbn [Buf.accesses].
  unfold Buf.bind at 1. rewrite Hskip.
  set (s1 := Buf.mk (whole ++ replicate n chr_nl ++ rest) (([] ++ [Buf.Rd 0]) ++ acc1)).
  destruct (load_in_range s1 (Z.of_nat (S (length ds)))) as (c' & Hc' & Hload).
  { subst s1. cbn [Buf.cells]. rewrite length_app. lia. }
  assert (c' = chr_gt) as ->.
  { subst s1. cbn [Buf.cells] in Hc'. rewrite Nat2Z.id, Hcells in Hc'.
    rewrite lookup_app_r in Hc' by (cbn [length]; lia).
    cbn [length] in Hc'.
    replace (S (length ds) - 1)%nat with (length ds) in Hc' by lia.
    rewrite list_lookup_middle in Hc' by reflexivity. congruence. }
  unfold Buf.bind at 1. rewrite Hload.
  destruct (decide (chr_gt = chr_gt)) as [_|Hc]; [|congruence].
  unfold Buf.ret at 1.
  assert (Hlast' : last whole <> Some chr_nl).
  { subst whole.
    replace (chr_lt :: ds ++ chr_gt :: body) with ((chr_lt :: ds) ++ chr_gt :: body)
      by reflexivity.
    rewrite last_app.
    destruct (last (chr_gt :: body)) eqn:El; [exact Hlast|].
    exfalso. rewrite last_None in El. discriminate. }
  unfold Buf.bind. subst s1. cbn [Buf.cells Buf.accesses].
  match goal with |- context [trim_newlines _ _ (Buf.mk _ ?a)] =>
    destruct (trim_newlines_spec n whole rest a (S (Z.to_nat len)))
      as [acc' Hrun]; [subst whole; discriminate|exact Hlast'|subst len; lia|] end.
  subst len. rewrite Hrun. cbn [Buf.ret].
  eexists. split; [reflexivity|]. cbn [h_call h_cells Buf.cells].
  split; [|reflexivity]. f_equal; lia.
Qed.

(** A complete priority tag in front of [body]: the tag goes, the
    trailing newlines go, and so does the last byte of [body]. *)
Theorem SyslogHandler_tagged (ds : list byte) (c : byte) (body' rest : list byte)
    (n : nat) :
  Forall (fun d => isdigit d = true) ds ->
  last (c :: body') <> Some chr_nl ->
  exists r,
    run_handler SyslogHandler
      ((chr_lt :: ds ++ chr_gt :: c :: body') ++ replicate n chr_nl ++ rest)
      (Z.of_nat (length (chr_lt :: ds ++ chr_gt :: c :: body') + n)) = Some r /\
    w_off (h_call r) = Z.of_nat (length ds) + 2 /\
    h_forwarded r = take (length body') (c :: body').
Proof.
  intros Hds Hlast.
  destruct (SyslogHandler_tag_call ds (c :: body') rest n Hds)
    as (r & Hr & Hcall & Hcells); [exact Hlast|].
  exists r. split; [exact Hr|]. rewrite Hcall. split; [reflexivity|].
  unfold h_forwarded, forwarded. rewrite Hcall, Hcells. cbn [w_off w_len].
  replace (Z.to_nat (Z.of_nat (length ds) + 2)) with (length (chr_lt :: ds ++ [chr_gt]))
    by (cbn [length]; rewrite length_app; cbn [length]; lia).
  replace ((chr_lt :: ds ++ chr_gt :: c :: body') ++ replicate n chr_nul ++ rest)
    with ((chr_lt :: ds ++ [chr_gt]) ++ (c :: body') ++ replicate n chr_nul ++ rest)
    by (cbn [app]; rewrite <- !(assoc_L (++) ds); reflexivity).
  rewrite drop_app_length.
  replace (Z.to_nat (Z.of_nat (length (c :: body')) - 1)) with (length body')
    by (cbn [length]; lia).
  rewrite take_app_le by (cbn [length]; lia).
  reflexivity.
Qed.

Lemma SyslogHandler_tagged_witness :
  exists r,
    run_handler SyslogHandler
      ((chr_lt :: bytes "13" ++ chr_gt :: "h"%byte :: bytes "ello")
         ++ replicate 1 chr_nl ++ [chr_nul])
      (Z.of_nat (length (chr_lt :: bytes "13" ++ chr_gt :: "h"%byte :: bytes "ello")
                 + 1)) = Some r /\
    w_off (h_call r) = Z.of_nat (length (bytes "13")) + 2 /\
    h_forwarded r = take (length (bytes "ello")) ("h"%byte :: bytes "ello").
Proof.
  apply (SyslogHandler_tagged (bytes "13") "h"%byte (bytes "ello") [chr_nul] 1).
  - repeat constructor.
  - discriminate.
Defined.

(** A message that is nothing but a priority tag, with or without
    newlines after it: the handler asks the logger for -1 bytes, so no
    byte of it is forwarded. *)
Theorem SyslogHandler_tag_only (ds rest : list byte) (n : nat) :
  Forall (fun d => isdigit d = true) ds ->
  exists r,
    run_handler SyslogHandler
      ((chr_lt :: ds ++ [chr_gt]) ++ replicate n chr_nl ++ rest)
      (Z.of_nat (length (chr_lt :: ds ++ [chr_gt]) + n)) = Some r /\
    h_call r = mk_write (Z.of_nat (length ds) + 2) (-1) /\
    h_forwarded r = [].
Proof.
  intros Hds.
  destruct (SyslogHandler_tag_call ds [] rest n Hds)
    as (r & Hr & Hcall & Hcells); [discriminate|].
  exists r. split; [exact Hr|]. split; [exact Hcall|].
  unfold h_forwarded, forwarded. rewrite Hcall. reflexivity.
Qed.

Lemma SyslogHandler_tag_only_witness :
  exists r,
    run_handler SyslogHandler
      ((chr_lt :: bytes "13" ++ [chr_gt]) ++ replicate 1 chr_nl ++ [chr_nul])
      (Z.of_nat (length (chr_lt :: bytes "13" ++ [chr_gt]) + 1)) = Some r /\
    h_call r = mk_write (Z.of_nat (length (bytes "13")) + 2) (-1) /\
    h_forwarded r = [].
Proof.
  apply (SyslogHandler_tag_only (bytes "13") [chr_nul] 1).
  repeat constructor.
Defined.

(** The untagged [hello] and a newline. *)
Lemma SyslogHandler_untagged_witness :
  exists r,
    run_handler SyslogHandler
      (("h"%byte :: bytes "ello") ++ replicate 1 chr_nl ++ [chr_nul])
      (Z.of_nat (length ("h"%byte :: bytes "ello") + 1)) = Some r /\
    h_forwarded r = take (length (bytes "ello")) ("h"%byte :: bytes "ello").
Proof.
  apply (SyslogHandler_untagged "h"%byte (bytes "ello") [chr_nul] 1).
  - discriminate.
  - discriminate.
Defined.

Lemma buf_step_ok_refl (len : Z) (s : Buf.state) : buf_step_ok len s s.
Proof.
  split; [exists []; split; [symmetry; apply app_nil_r|constructor]|].
  split; reflexivity.
Qed.

Lemma buf_step_ok_trans (len : Z) (s1 s2 s3 : Buf.state) :
  buf_step_ok len s1 s2 -> buf_step_ok len s2 s3 -> buf_step_ok len s1 s3.
Proof.
  intros ((m1 & H1 & F1) & L1 & D1) ((m2 & H2 & F2) & L2 & D2).
  split; [|split; congruence].
  exists (m1 ++ m2). split; [rewrite H2, H1, (assoc_L (++)); reflexivity|].
  apply Forall_app. split; assumption.
Qed.

Lemma load_step_ok (len i : Z) (c : byte) (s s' : Buf.state) :
  Buf.load i s = Some (c, s') -> i <= len -> buf_step_ok len s s'.
Proof.
  unfold Buf.load. intros H Hi.
  destruct (0 <=? i) eqn:E; [|discriminate]. apply Z.leb_le in E.
  destruct (Buf.cells s !! Z.to_nat i); [|discriminate].
  injection H as _ <-. split; [|split; reflexivity].
  eexists. split; [reflexivity|]. repeat constructor; lia.
Qed.

Lemma store_step_ok (len i : Z) (c : byte) (s s' : Buf.state) :
  Buf.store i c s = Some (tt, s') -> 0 < i < len -> buf_step_ok len s s'.
Proof.
  unfold Buf.store. intros H Hi.
  destruct (_ && _); [|discriminate]. injection H as <-.
  split; [eexists; split; [reflexivity|]; repeat constructor; lia|].
  cbn [Buf.cells]. split; [apply length_insert|].
  apply drop_insert_lt. lia.
Qed.

Lemma skip_digits_step_ok (fuel : nat) :
  forall (len start start' : Z) (s s' : Buf.state),
  skip_digits fuel len start s = Some (start', s') -> 0 <= start < len ->
  buf_step_ok len s s' /\ start < start' <= len.
Proof.
  induction fuel as [|fuel IH]; intros len start start' s s' H Hs; [discriminate|].
  cbn [skip_digits] in H.
  destruct (start + 1 <? len) eqn:E.
  - apply Z.ltb_lt in E. unfold Buf.bind in H.
    destruct (Buf.load (start + 1) s) as [[c s1]|] eqn:Hload; [|discriminate].
    apply load_step_ok with (len := len) in Hload; [|lia].
    destruct (isdigit c).
    + apply IH in H as [Hok Hb]; [|lia].
      split; [eapply buf_step_ok_trans; eauto|lia].
    + injection H as <- <-. split; [exact Hload|lia].
  - apply Z.ltb_ge in E. injection H as <- <-.
    split; [apply buf_step_ok_refl|lia].
Qed.

Lemma trim_newlines_step_ok (fuel : nat) :
  forall (len end_ end' : Z) (s s' : Buf.state),
  trim_newlines fuel end_ s = Some (end', s') -> end_ < len ->
  buf_step_ok len s s' /\ end' <= end_.
Proof.
  induction fuel as [|fuel IH]; intros len end_ end' s s' H He; [discriminate|].
  cbn [trim_newlines] in H.
  destruct (0 <? end_) eqn:E.
  - apply Z.ltb_lt in E. unfold Buf.bind at 1 in H.
    destruct (Buf.load end_ s) as [[c s1]|] eqn:Hload; [|discriminate].
    apply load_step_ok with (len := len) in Hload; [|lia].
    destruct (decide (c = chr_nl)).
    + unfold Buf.bind in H.
      destruct (Buf.store end_ chr_nul s1) as [[[] s2]|] eqn:Hstore; [|discriminate].
      apply store_step_ok with (len := len) in Hstore; [|lia].
      apply IH with (len := len) in H as (Hok & Hb); [|lia].
      split; [eauto using buf_step_ok_trans|lia].
    + injection H as <- <-. split; [exact Hload|lia].
  - apply Z.ltb_ge in E. injection H as <- <-.
    split; [apply buf_step_ok_refl|lia].
Qed.

(** [SyslogHandler::handle] on [len] bytes at the start of a longer
    array: it returns; it reads no index above [len] and writes only
    indices strictly between 0 and [len]; the array keeps its size and
    its elements from [len] on; and a positive length it passes to the
    logger stays inside the input. *)
Theorem SyslogHandler_stays_in_bounds (cs : list byte) (len : Z) :
  0 < len < Z.of_nat (length cs) ->
  exists r,
    run_handler SyslogHandler cs len = Some r /\
    Forall (access_ok len) (h_accesses r) /\
    length (h_cells r) = length cs /\
    drop (Z.to_nat len) (h_cells r) = drop (Z.to_nat len) cs /\
    0 <= w_off (h_call r) <= len + 1 /\
    w_off (h_call r) + w_len (h_call r) < len.
Proof.
  intros Hlen.
  destruct (SyslogHandler_handle_total len (Buf.init cs)) as (w & s' & Hrun & _);
    [cbn; lia|].
  unfold run_handler, handle. rewrite Hrun. eexists. split; [reflexivity|].
  cbn [h_accesses h_cells h_call].
  unfold SyslogHandler_handle in Hrun.
  assert (Hpos : (0 <? len) = true) by (apply Z.ltb_lt; lia).
  rewrite Hpos in Hrun. unfold Buf.bind at 1 in Hrun.
  match type of Hrun with match ?m ?s0 with _ => _ end = _ =>
    destruct (m s0) as [[start s1]|] eqn:Hfirst; [|discriminate] end.
  assert (H1 : buf_step_ok len (Buf.init cs) s1 /\ 0 <= start <= len + 1).
  { unfold Buf.bind at 1 in Hfirst.
    destruct (Buf.load 0 (Buf.init cs)) as [[c s0]|] eqn:Hload; [|discriminate].
    apply load_step_ok with (len := len) in Hload; [|lia].
    destruct (decide (c = chr_lt)); [|injection Hfirst as <- <-; split; [auto|lia]].
    unfold Buf.bind at 1 in Hfirst.
    destruct (skip_digits _ len 0 s0) as [[st s2]|] eqn:Hskip; [|discriminate].
    apply skip_digits_step_ok in Hskip as [Hok Hb]; [|lia].
    unfold Buf.bind in Hfirst.
    destruct (Buf.load st s2) as [[c' s3]|] eqn:Hload'; [|discriminate].
    apply load_step_ok with (len := len) in Hload'; [|lia].
    assert (Hall : buf_step_ok len (Buf.init cs) s3)
      by eauto using buf_step_ok_trans.
    destruct (decide (c' = chr_gt)); injection Hfirst as <- <-; (split; [auto|lia]). }
  destruct H1 as [Hok1 Hstart].
  unfold Buf.bind in Hrun.
  destruct (trim_newlines _ (len - 1) s1) as [[end' s2]|] eqn:Htrim; [|discriminate].
  apply trim_newlines_step_ok with (len := len) in Htrim as [Hok2 Hend]; [|lia].
  injection Hrun as <- <-.
  destruct (buf_step_ok_trans _ _ _ _ Hok1 Hok2) as ((more & Hacc & Hall) & Hl & Hd).
  cbn [Buf.init Buf.accesses Buf.cells app] in Hacc, Hl, Hd.
  cbn [w_off w_len]. rewrite Hacc.
  repeat split; try assumption; lia.
Qed.

Lemma SyslogHandler_stays_in_bounds_witness :
  exists r,
    run_handler SyslogHandler (stack_buf hello_datagram) 10 = Some r /\
    Forall (access_ok 10) (h_accesses r) /\
    length (h_cells r) = length (stack_buf hello_datagram) /\
    drop (Z.to_nat 10) (h_cells r) = drop (Z.to_nat 10) (stack_buf hello_datagram) /\
    0 <= w_off (h_call r) <= 10 + 1 /\
    w_off (h_call r) + w_len (h_call r) < 10.
Proof.
  apply (SyslogHandler_stays_in_bounds (stack_buf hello_datagram) 10).
  rewrite length_stack_buf. unfold NELEMS_buf. lia.
Defined.

(** The accesses of the [for] loop lie in [pos, len). *)
Lemma fold_newlines_accesses (fuel : nat) :
  forall (len pos : Z) (s s' : Buf.state),
  fold_newlines fuel len pos s = Some (tt, s') -> 0 <= pos ->
  exists more, Buf.accesses s' = Buf.accesses s ++ more /\
               Forall (fun a => 0 <= Buf.index a < len) more.
Proof.
  induction fuel as [|fuel IH]; intros len pos s s' H Hpos; cbn [fold_newlines] in H.
  - destruct (pos <? len); [discriminate|]. injection H as <-.
    exists []. split; [symmetry; apply app_nil_r|constructor].
  - destruct (pos <? len) eqn:E;
      [|injection H as <-; exists []; split; [symmetry; apply app_nil_r|constructor]].
    apply Z.ltb_lt in E. unfold Buf.bind at 1 in H. unfold Buf.load in H.
    destruct (0 <=? pos); [|discriminate].
    destruct (Buf.cells s !! Z.to_nat pos) as [c|]; [|discriminate].
    unfold Buf.bind at 1 in H.
    destruct (decide (c = chr_nl)).
    + unfold Buf.store in H. cbn [Buf.cells Buf.accesses] in H.
      destruct (_ && _); [|discriminate].
      apply IH in H as (more & Hacc & Hall); [|lia].
      cbn [Buf.accesses] in Hacc. rewrite Hacc, <- !(assoc_L (++)).
      eexists. split; [reflexivity|]. repeat constructor; cbn; try lia. exact Hall.
    + cbn [Buf.ret] in H. apply IH in H as (more & Hacc & Hall); [|lia].
      cbn [Buf.accesses] in Hacc. rewrite Hacc, <- !(assoc_L (++)).
      eexists. split; [reflexivity|]. repeat constructor; cbn; try lia. exact Hall.
Qed.

(** [JournalHandler::handle] passes on no newline, touches only the
    [len] bytes of its input, leaves in the array exactly what it
    forwarded followed by the untouched rest, and handling the result
    again changes nothing. *)
Theorem JournalHandler_leaves_no_newline (input rest : list byte) :
  exists r,
    run_handler JournalHandler (input ++ rest) (Z.of_nat (length input)) = Some r /\
    (chr_nl ∉ h_forwarded r) /\
    Forall (fun a => 0 <= Buf.index a < Z.of_nat (length input)) (h_accesses r) /\
    h_cells r = h_forwarded r ++ rest /\
    exists r',
      run_handler JournalHandler (h_cells r) (Z.of_nat (length input)) = Some r' /\
      h_cells r' = h_cells r /\ h_forwarded r' = h_forwarded r.
Proof.
  destruct (JournalHandler_folds_newlines_general input rest) as (r & Hr & Hfw & Hcells).
  exists r. split; [exact Hr|].
  split.
  { rewrite Hfw. intros Hin. apply list_elem_of_fmap in Hin as (c & Hc & _).
    unfold newline_to_space in Hc. destruct (decide (c = chr_nl)); [discriminate|].
    congruence. }
  split.
  { unfold run_handler, handle, JournalHandler_handle in Hr.
    unfold Buf.bind in Hr.
    destruct (fold_newlines _ _ 0 (Buf.init (input ++ rest))) as [[[] s']|] eqn:Hf;
      [|discriminate].
    apply fold_newlines_accesses in Hf as (more & Hacc & Hall); [|lia].
    injection Hr as <-. cbn [h_accesses Buf.ret Buf.accesses]. 
    cbn [Buf.init Buf.accesses app] in Hacc. rewrite Hacc. exact Hall. }
  split; [rewrite Hcells, Hfw; reflexivity|].
  destruct (JournalHandler_folds_newlines_general (map newline_to_space input) rest)
    as (r' & Hr' & Hfw' & Hcells').
  rewrite length_map in Hr'. rewrite Hcells. exists r'. split; [exact Hr'|].
  assert (Hidem : map newline_to_space (map newline_to_space input)
                  = map newline_to_space input).
  { rewrite map_map. apply map_ext. intros c. unfold newline_to_space.
    destruct (decide (c = chr_nl)) as [->|?]; [reflexivity|].
    destruct (decide (c = chr_nl)); [contradiction|reflexivity]. }
  rewrite Hcells', Hfw', Hidem, Hfw. split; reflexivity.
Qed.

(** [::read] hands over no more than the descriptor held. *)
Lemma sys_read_available (count : nat) (d : descriptor) :
  forall len data d', sys_read count d = (len, data, d') ->
  (length data + length (available d') <= length (available d))%nat.
Proof.
  intros len data d' H. destruct d as [[|b p] peer|[|m ms]]; unfold sys_read in H;
    injection H as <- <- <-; cbn [available concat].
  - cbn [length]. lia.
  - rewrite length_take, length_drop. lia.
  - cbn [length]. lia.
  - rewrite length_app, length_take. lia.
Qed.

Lemma SocketReader_read_chunks (fuel : nat) :
  forall (h : handler) (d : descriptor) (buf : list byte),
  length buf = NELEMS_buf -> (reads_left d < fuel)%nat ->
  exists r,
    SocketReader_read fuel h d buf = Some r /\
    Forall (fun c => (0 < length c < NELEMS_buf)%nat) (d_chunks r) /\
    length (d_buf r) = NELEMS_buf /\
    (length (concat (d_chunks r)) <= length (available d))%nat.
Proof.
  induction fuel as [|fuel IH]; intros h d buf Hbuf Hfuel; [lia|].
  cbn [SocketReader_read].
  destruct (sys_read (NELEMS_buf - 1) d) as [[len data] d'] eqn:Hread.
  destruct (sys_read_step _ _ _ _ _ Hread) as [Hdata Hstep].
  pose proof NELEMS_buf_pos as Hpos.
  assert (Hbuf' : length (data ++ drop (length data) buf) = NELEMS_buf).
  { rewrite length_app, length_drop. lia. }
  pose proof (sys_read_available _ _ _ _ _ Hread) as Hav.
  destruct (0 <? len) eqn:E.
  2:{ eexists. split; [reflexivity|]. cbn. split; [constructor|]. split; [exact Hbuf'|lia]. }
  apply Z.ltb_lt in E. destruct (Hstep E) as [-> Hless].
  destruct (run_handler_total h (data ++ drop (length data) buf)
              (Z.of_nat (length data))) as (r & Hr & Hlen); [lia|].
  rewrite Hr.
  destruct (IH h d' (h_cells r)) as (rest & Hrest & Hall & Hb & Hsum); [lia|lia|].
  rewrite Hrest. eexists. split; [reflexivity|]. cbn [d_chunks d_buf].
  rewrite Nat2Z.id, take_app_length.
  split; [constructor; [lia|exact Hall]|]. split; [exact Hb|].
  cbn [concat]. rewrite length_app.
  lia.
Qed.

(** Whatever the descriptor holds and whichever handler is installed, a
    drain ends, and every chunk the handler was given has between 1 and
    [NELEMS(buf) - 1] bytes; together they are no more than the
    descriptor held. *)
Theorem drain_chunks_fit_the_buffer (h : handler) (d : descriptor)
    (junk : list byte) :
  exists r,
    reader_read h d junk = Some r /\
    Forall (fun c => (0 < length c < NELEMS_buf)%nat) (d_chunks r) /\
    (length (concat (d_chunks r)) <= length (available d))%nat.
Proof.
  unfold reader_read.
  destruct (SocketReader_read_chunks (S (reads_left d)) h d (stack_buf junk))
    as (r & Hr & Hall & _ & Hsum); [apply length_stack_buf|lia|].
  exists r. auto.
Qed.

(** A read that returns nothing ends the drain at once: with nothing
    queued the handler is not called and nothing is written, and a
    zero-length datagram at the head of the queue has the same effect,
    the messages behind it staying queued. *)
Theorem drain_stops_on_empty_read (h : handler) (junk : list byte) :
  (forall peer, reader_read h (StreamFd [] peer) junk
     = Some (mk_drained [] [] (StreamFd [] peer) (stack_buf junk))) /\
  reader_read h (DgramFd []) junk
    = Some (mk_drained [] [] (DgramFd []) (stack_buf junk)) /\
  (forall ms, reader_read h (DgramFd ([] :: ms)) junk
     = Some (mk_drained [] [] (DgramFd ms) (stack_buf junk))).
Proof.
  split; [|split].
  - intros [|]; reflexivity.
  - reflexivity.
  - intros ms. reflexivity.
Qed.

(** What a length-keeping handler forwards for a chunk at the start of
    the array. *)
Lemma run_handler_keeps_length (h : handler) (data tail : list byte) :
  h <> SyslogHandler ->
  exists r,
    run_handler h (data ++ tail) (Z.of_nat (length data)) = Some r /\
    h_forwarded r = map (handler_map h) data /\
    length (h_cells r) = length (data ++ tail).
Proof.
  intros Hh. destruct h; [congruence| |].
  - destruct (JournalHandler_folds_newlines_general data tail) as (r & Hr & Hfw & Hc).
    exists r. split; [exact Hr|]. split; [exact Hfw|].
    rewrite Hc, !length_app, length_map. reflexivity.
  - eexists. split; [reflexivity|]. split; [|reflexivity].
    unfold h_forwarded, forwarded. cbn [h_cells h_call w_off w_len Buf.cells Buf.init].
    change (Z.to_nat 0) with 0%nat. rewrite drop_0, Nat2Z.id, take_app_length.
    symmetry. apply map_id.
Qed.

Lemma SocketReader_read_written (fuel : nat) :
  forall (h : handler) (d : descriptor) (buf : list byte),
  h <> SyslogHandler ->
  length buf = NELEMS_buf -> (reads_left d < fuel)%nat ->
  exists r,
    SocketReader_read fuel h d buf = Some r /\
    d_written r
    = concat (map (fun c => chr_nl :: map (handler_map h) c) (d_chunks r)).
Proof.
  induction fuel as [|fuel IH]; intros h d buf Hh Hbuf Hfuel; [lia|].
  cbn [SocketReader_read].
  destruct (sys_read (NELEMS_buf - 1) d) as [[len data] d'] eqn:Hread.
  destruct (sys_read_step _ _ _ _ _ Hread) as [Hdata Hstep].
  pose proof NELEMS_buf_pos as Hpos.
  destruct (0 <? len) eqn:E; [|eexists; split; reflexivity].
  apply Z.ltb_lt in E. destruct (Hstep E) as [-> Hless].
  destruct (run_handler_keeps_length h data (drop (length data) buf) Hh)
    as (r & Hr & Hfw & Hlen).
  rewrite Hr.
  destruct (IH h d' (h_cells r) Hh) as (rest & Hrest & Hw);
    [rewrite Hlen, length_app, length_drop; lia|lia|].
  rewrite Hrest. eexists. split; [reflexivity|]. cbn [d_chunks d_written].
  rewrite Nat2Z.id, take_app_length. cbn [map concat].
  rewrite Hw. unfold FileLogger_write. fold (h_forwarded r). rewrite Hfw.
  reflexivity.
Qed.

(** With the pass-through or the journal handler installed, the bytes
    one drain appends to the log are the chunks in order, each after a
    newline: unchanged for [StreamHandler], with its newlines turned into
    spaces for [JournalHandler]. *)
Theorem drain_writes_one_record_per_chunk (h : handler) (d : descriptor)
    (junk : list byte) :
  h <> SyslogHandler ->
  exists r,
    reader_read h d junk = Some r /\
    d_written r
    = concat (map (fun c => chr_nl :: map (handler_map h) c) (d_chunks r)).
Proof.
  intros Hh. unfold reader_read.
  apply SocketReader_read_written; [exact Hh|apply length_stack_buf|lia].
Qed.

Lemma drain_writes_one_record_per_chunk_witness :
  exists r,
    reader_read JournalHandler (DgramFd [line_one_line_two]) [] = Some r /\
    d_written r
    = concat (map (fun c => chr_nl :: map (handler_map JournalHandler) c)
                  (d_chunks r)).
Proof.
  apply (drain_writes_one_record_per_chunk JournalHandler
           (DgramFd [line_one_line_two]) []).
  discriminate.
Defined.

(** Every message in front of a zero-length datagram is delivered, and
    the drain stops there. *)
Lemma SocketReader_read_until_empty (ms1 : list (list byte)) :
  forall (h : handler) (ms2 : list (list byte)) (buf : list byte) (fuel : nat),
  Forall (fun m => (0 < length m < NELEMS_buf)%nat) ms1 ->
  length buf = NELEMS_buf -> (length ms1 < fuel)%nat ->
  exists r,
    SocketReader_read fuel h (DgramFd (ms1 ++ [] :: ms2)) buf = Some r /\
    d_chunks r = ms1 /\ d_desc r = DgramFd ms2.
Proof.
  induction ms1 as [|m ms1 IH]; intros h ms2 buf fuel Hall Hbuf Hfuel;
    (destruct fuel as [|fuel]; [cbn in Hfuel; lia|]).
  - eexists. split; [reflexivity|]. split; reflexivity.
  - apply Forall_cons in Hall as [Hm Hall].
    cbn [SocketReader_read app]. unfold sys_read.
    rewrite take_ge by lia.
    assert (Hpos : (0 <? Z.of_nat (length m)) = true) by (apply Z.ltb_lt; lia).
    rewrite Hpos.
    destruct (run_handler_total h (m ++ drop (length m) buf) (Z.of_nat (length m)))
      as (r & Hr & Hlen); [rewrite length_app, length_drop; lia|].
    rewrite Hr.
    destruct (IH h ms2 (h_cells r) fuel Hall) as (rest & Hrest & Hc & Hd);
      [rewrite Hlen, length_app, length_drop; lia|cbn [length] in Hfuel; lia|].
    rewrite Hrest. eexists. split; [reflexivity|]. cbn [d_chunks d_desc].
    rewrite Nat2Z.id, take_app_length, Hc, Hd. split; reflexivity.
Qed.

(** A zero-length datagram ends the drain: the messages in front of it
    are handed to the handler one by one, those behind it stay queued. *)
Theorem drain_stops_at_empty_datagram (h : handler)
    (ms1 ms2 : list (list byte)) (junk : list byte) :
  Forall (fun m => (0 < length m < NELEMS_buf)%nat) ms1 ->
  exists r,
    reader_read h (DgramFd (ms1 ++ [] :: ms2)) junk = Some r /\
    d_chunks r = ms1 /\ d_desc r = DgramFd ms2.
Proof.
  intros Hall. unfold reader_read.
  apply SocketReader_read_until_empty;
    [exact Hall|apply length_stack_buf|].
  cbn [reads_left]. rewrite length_app. cbn [length]. lia.
Qed.

Lemma drain_stops_at_empty_datagram_witness :
  exists r,
    reader_read SyslogHandler (DgramFd ([hello_datagram] ++ [] :: [hello_untagged])) []
      = Some r /\
    d_chunks r = [hello_datagram] /\ d_desc r = DgramFd [hello_untagged].
Proof.
  apply (drain_stops_at_empty_datagram SyslogHandler [hello_datagram]
           [hello_untagged] []).
  repeat constructor; cbn; unfold NELEMS_buf; lia.
Defined.

(** [unix_open] hands back a descriptor only when [socket] and [bind]
    both succeeded, and then that descriptor is open; when it fails no
    descriptor stays behind.  The registry and the interest list are not
    touched. *)
Theorem unix_open_leaks_no_descriptor (r : open_response) (w : world) :
  o_socket r ∉ open_fds w -> o_socket r ∉ epoll_set w ->
  exists fd w',
    unix_open r w = Ok fd w' /\
    observers w' = observers w /\ epoll_set w' = epoll_set w /\
    match opened r with
    | Some x => fd = x /\ 0 <= fd /\ open_fds w' = open_fds w ∪ {[x]}
    | None => fd < 0 /\ open_fds w' = open_fds w
    end.
Proof.
  intros Hfresh Hwatch. unfold unix_open, opened.
  destruct (0 <=? o_socket r) eqn:Es; cbn [andb].
  - apply Z.leb_le in Es. unfold Proc.bind, Proc.modify.
    destruct (o_bind r <? 0) eqn:Eb; cbn [negb].
    + eexists _, _. split; [reflexivity|]. cbn.
      split; [reflexivity|]. split; [set_solver|]. split; [lia|set_solver].
    + eexists _, _. split; [reflexivity|]. cbn. repeat split. exact Es.
  - apply Z.leb_gt in Es. eexists _, _. split; [reflexivity|].
    repeat split. exact Es.
Qed.

Lemma unix_open_leaks_no_descriptor_witness :
  exists fd w',
    unix_open (mk_open 3 (-1)) start_world = Ok fd w' /\
    observers w' = observers start_world /\ epoll_set w' = epoll_set start_world /\
    match opened (mk_open 3 (-1)) with
    | Some x => fd = x /\ 0 <= fd /\ open_fds w' = open_fds start_world ∪ {[x]}
    | None => fd < 0 /\ open_fds w' = open_fds start_world
    end.
Proof.
  apply (unix_open_leaks_no_descriptor (mk_open 3 (-1)) start_world).
  - vm_compute. intros H. discriminate H.
  - vm_compute. intros H. discriminate H.
Defined.

(** [addObserver] on a key that is not registered, with the descriptor
    open. *)
Lemma addObserver_fresh (o : observer) (w : world) :
  observers w !! key o = None -> key o ∈ open_fds w ->
  addObserver o w
  = Ok tt (set_observers (insert (key o) o)
             (set_epoll_set (fun s => s ∪ {[key o]}) w)).
Proof.
  intros Hnone Hopen. unfold addObserver, observers_assign, epoll_addwatch.
  unfold Proc.bind, Proc.get, Proc.modify.
  destruct (decide (observers w !! key o = None)) as [_|Hc]; [|contradiction].
  destruct (decide (key o ∈ open_fds w)) as [_|Hc]; [|contradiction].
  cbn [observers set_epoll_set]. rewrite Hnone. reflexivity.
Qed.

(** [delObserver] on a registered key. *)
Lemma delObserver_present (k : Z) (old : observer) (w : world) :
  observers w !! k = Some old ->
  delObserver k w
  = Ok tt (set_epoll_set (fun s => s ∖ {[sock_fd old]})
             (set_open_fds (fun s => s ∖ {[sock_fd old]})
                (set_observers (delete k)
                   (set_epoll_set (fun s => s ∖ {[k]}) w)))).
Proof.
  intros Hk. unfold delObserver, epoll_delwatch, observers_erase.
  unfold Proc.bind, Proc.get, Proc.modify. cbn [observers set_epoll_set].
  rewrite Hk. reflexivity.
Qed.

(** Registering an observer under a new key and deregistering that key
    again: in between the observer is found under its key and its
    descriptor is watched; afterwards the registry and the interest list
    are what they were, and the descriptor is closed. *)
Theorem addObserver_delObserver_round_trip (o : observer) (w : world) :
  observers w !! key o = None -> key o ∈ open_fds w -> key o ∉ epoll_set w ->
  exists w1 w2,
    addObserver o w = Ok tt w1 /\
    observers w1 !! key o = Some o /\ key o ∈ epoll_set w1 /\
    delObserver (key o) w1 = Ok tt w2 /\
    observers w2 = observers w /\ epoll_set w2 = epoll_set w /\
    open_fds w2 = open_fds w ∖ {[key o]}.
Proof.
  intros Hnone Hopen Hwatch.
  rewrite (addObserver_fresh o w Hnone Hopen).
  eexists _, _. split; [reflexivity|].
  split; [cbn; apply lookup_insert_eq|].
  split; [cbn; set_solver|].
  rewrite (delObserver_present (key o) o) by (cbn; apply lookup_insert_eq).
  split; [reflexivity|]. cbn. unfold key.
  split; [apply delete_insert_id; exact Hnone|].
  split; set_solver.
Qed.

Lemma addObserver_delObserver_round_trip_witness :
  exists w1 w2,
    addObserver stream_on_6 (set_open_fds (fun s => s ∪ {[6]}) start_world)
      = Ok tt w1 /\
    observers w1 !! key stream_on_6 = Some stream_on_6 /\
    key stream_on_6 ∈ epoll_set w1 /\
    delObserver (key stream_on_6) w1 = Ok tt w2 /\
    observers w2 = observers (set_open_fds (fun s => s ∪ {[6]}) start_world) /\
    epoll_set w2 = epoll_set (set_open_fds (fun s => s ∪ {[6]}) start_world) /\
    open_fds w2
    = open_fds (set_open_fds (fun s => s ∪ {[6]}) start_world) ∖ {[key stream_on_6]}.
Proof.
  apply (addObserver_delObserver_round_trip stream_on_6
           (set_open_fds (fun s => s ∪ {[6]}) start_world)).
  - reflexivity.
  - vm_compute. reflexivity.
  - vm_compute. intros H. discriminate H.
Defined.

(** [StdoutObserver::notify] when [accept4] succeeds. *)
Lemma StdoutObserver_notify_accepts (o : observer) (r : os_response) (w : world) :
  sock_fd o ∈ open_fds w -> 0 <= r_accept r -> observers w !! r_accept r = None ->
  StdoutObserver_notify o r w
  = Ok tt (set_observers
             (insert (r_accept r)
                (mk_observer (next_obj w) StreamObserver (r_accept r) (_reader o)))
             (set_epoll_set (fun s => s ∪ {[r_accept r]})
                (bump_obj (set_open_fds (fun s => s ∪ {[r_accept r]}) w)))).
Proof.
  intros Hopen Hfd Hnone.
  assert (E1 : (0 <=? r_accept r) = true) by (apply Z.leb_le; lia).
  assert (E2 : (r_accept r <? 0) = false) by (apply Z.ltb_ge; lia).
  unfold StdoutObserver_notify, StreamObserver_new, unix_accept.
  unfold fd_set_nonblock, new_object, Proc.bind, Proc.get, Proc.modify, Proc.ret.
  destruct (decide (sock_fd o ∈ open_fds w)) as [_|Hc]; [|contradiction].
  rewrite E1, E2.
  rewrite addObserver_fresh; [reflexivity|exact Hnone|cbn; set_solver].
Qed.

(** A readiness event on the listener with a connection to accept
    registers exactly one new observer: a [StreamObserver] on the accepted
    descriptor, with the listener's reader, open and watched; every other
    registration stays and nothing is written. *)
Theorem listener_registers_one_connection (o : observer) (r : os_response)
    (w : world) :
  cls o = StdoutObserver -> sock_fd o ∈ open_fds w ->
  0 <= r_accept r -> observers w !! r_accept r = None ->
  exists w',
    notify o r w = Ok tt w' /\
    observers w'
    = <[r_accept r := mk_observer (next_obj w) StreamObserver (r_accept r)
                        (_reader o)]> (observers w) /\
    size (observers w') = S (size (observers w)) /\
    r_accept r ∈ epoll_set w' /\ r_accept r ∈ open_fds w' /\
    out w' = out w /\ stopped w' = stopped w.
Proof.
  intros Hc Hopen Hfd Hnone. unfold notify. rewrite Hc.
  rewrite StdoutObserver_notify_accepts by assumption.
  eexists. split; [reflexivity|]. cbn.
  split; [reflexivity|]. split; [apply map_size_insert_None; exact Hnone|].
  repeat split; set_solver.
Qed.

Lemma listener_registers_one_connection_witness :
  exists w',
    notify (mk_observer 0 StdoutObserver 3 StreamHandler)
           (mk_resp (DgramFd []) [] 6) world_with_3 = Ok tt w' /\
    observers w'
    = <[r_accept (mk_resp (DgramFd []) [] 6) :=
          mk_observer (next_obj world_with_3) StreamObserver
            (r_accept (mk_resp (DgramFd []) [] 6))
            (_reader (mk_observer 0 StdoutObserver 3 StreamHandler))]>
        (observers world_with_3) /\
    size (observers w') = S (size (observers world_with_3)) /\
    r_accept (mk_resp (DgramFd []) [] 6) ∈ epoll_set w' /\
    r_accept (mk_resp (DgramFd []) [] 6) ∈ open_fds w' /\
    out w' = out world_with_3 /\ stopped w' = stopped world_with_3.
Proof.
  apply (listener_registers_one_connection
           (mk_observer 0 StdoutObserver 3 StreamHandler)
           (mk_resp (DgramFd []) [] 6) world_with_3).
  - reflexivity.
  - vm_compute. reflexivity.
  - vm_compute. discriminate.
  - reflexivity.
Defined.

(** [notify] on a datagram observer is one drain. *)
Lemma datagram_observer_frame (o : observer) (r : os_response) (w : world) :
  cls o = SyslogObserver \/ cls o = SocketObserver ->
  exists bs, notify o r w = Ok tt (put_out bs w).
Proof.
  intros [Hc|Hc]; unfold notify; rewrite Hc;
    apply ReaderInterface_read_returns.
Qed.

(** [notify] on one of the two datagram observers only writes to
    standard output: the registry, the interest list, the descriptors
    and the flag are as before, whatever the socket holds. *)
Theorem datagram_observer_stays_registered (o : observer) (r : os_response)
    (w : world) :
  cls o = SyslogObserver \/ cls o = SocketObserver ->
  exists bs, notify o r w = Ok tt (put_out bs w).
Proof. apply datagram_observer_frame. Qed.

Lemma datagram_observer_stays_registered_witness :
  exists bs,
    notify syslog_on_3 (mk_resp (DgramFd [hello_datagram]) [] (-1)) world_with_3
    = Ok tt (put_out bs world_with_3).
Proof.
  apply (datagram_observer_stays_registered syslog_on_3
           (mk_resp (DgramFd [hello_datagram]) [] (-1)) world_with_3).
  left. reflexivity.
Defined.

(** A connection from accept to close: the listener's [notify] registers
    it, its own [notify] drains and removes it, and then the registry,
    the interest list and the descriptor table are what they were before
    the connection came in. *)
Theorem connection_leaves_no_trace (l : observer) (r1 r2 : os_response)
    (w : world) :
  cls l = StdoutObserver -> sock_fd l ∈ open_fds w ->
  0 <= r_accept r1 -> r_accept r1 ∉ open_fds w -> r_accept r1 ∉ epoll_set w ->
  observers w !! r_accept r1 = None ->
  exists w1 c w2,
    notify l r1 w = Ok tt w1 /\
    observers w1 !! r_accept r1 = Some c /\ cls c = StreamObserver /\
    notify c r2 w1 = Ok tt w2 /\
    observers w2 = observers w /\ epoll_set w2 = epoll_set w /\
    open_fds w2 = open_fds w /\ stopped w2 = stopped w.
Proof.
  intros Hc Hopen Hfd Hclosed Hwatch Hnone. unfold notify at 1. rewrite Hc.
  rewrite StdoutObserver_notify_accepts by assumption.
  set (c := mk_observer (next_obj w) StreamObserver (r_accept r1) (_reader l)).
  match goal with |- context [Ok tt ?v = Ok tt _] => set (w1 := v) end.
  destruct (ReaderInterface_read_returns (_reader c) (sock_fd c) r2 w1) as [bs Hread].
  exists w1, c. eexists. split; [reflexivity|].
  split; [cbn; apply lookup_insert_eq|]. split; [reflexivity|].
  unfold notify. cbn [cls c]. unfold StreamObserver_notify, Proc.bind.
  rewrite Hread.
  rewrite (delObserver_present (sock_fd c) c) by (cbn; apply lookup_insert_eq).
  split; [reflexivity|]. cbn.
  split; [apply delete_insert_id; exact Hnone|].
  repeat split; set_solver.
Qed.

Lemma connection_leaves_no_trace_witness :
  exists w1 c w2,
    notify (mk_observer 0 StdoutObserver 3 StreamHandler)
           (mk_resp (DgramFd []) [] 6) world_with_3 = Ok tt w1 /\
    observers w1 !! r_accept (mk_resp (DgramFd []) [] 6) = Some c /\
    cls c = StreamObserver /\
    notify c (mk_resp (StreamFd (bytes "hi") false) [] (-1)) w1 = Ok tt w2 /\
    observers w2 = observers world_with_3 /\
    epoll_set w2 = epoll_set world_with_3 /\
    open_fds w2 = open_fds world_with_3 /\ stopped w2 = stopped world_with_3.
Proof.
  apply (connection_leaves_no_trace
           (mk_observer 0 StdoutObserver 3 StreamHandler)
           (mk_resp (DgramFd []) [] 6)
           (mk_resp (StreamFd (bytes "hi") false) [] (-1)) world_with_3).
  - reflexivity.
  - vm_compute. reflexivity.
  - vm_compute. discriminate.
  - vm_compute. intros H. discriminate H.
  - vm_compute. intros H. discriminate H.
  - reflexivity.
Defined.

Lemma step_ok_refl (w : world) : step_ok w w.
Proof. split; [repeat split|trivial]. Qed.

Lemma step_ok_trans (w1 w2 w3 : world) :
  step_ok w1 w2 -> step_ok w2 w3 -> step_ok w1 w3.
Proof.
  intros [(A1 & B1 & C1) I1] [(A2 & B2 & C2) I2].
  split; [repeat split; congruence|auto].
Qed.

Lemma addObserver_step_ok (o : observer) (w : world) :
  exists w', addObserver o w = Ok tt w' /\ step_ok w w'.
Proof.
  unfold addObserver, observers_assign, epoll_addwatch.
  unfold Proc.bind, Proc.get, Proc.modify.
  destruct (decide (observers w !! key o = None)) as [Hnone|Hsome].
  - destruct (decide (key o ∈ open_fds w)) as [Hopen|Hclosed];
      cbn [observers set_epoll_set]; rewrite Hnone;
      (eexists; split; [reflexivity|]); (split; [repeat split|]);
      intros Hinv fd Hfd; cbn in *.
    + apply elem_of_union in Hfd as [Hfd|Hfd].
      * destruct (Hinv fd Hfd) as [Hreg Hop]. split; [|exact Hop].
        rewrite lookup_insert. destruct (decide _); eauto.
      * apply elem_of_singleton in Hfd as ->.
        split; [rewrite lookup_insert_eq; eauto|exact Hopen].
    + destruct (Hinv fd Hfd) as [Hreg Hop]. split; [|exact Hop].
      rewrite lookup_insert. destruct (decide _); eauto.
  - cbn [Proc.ret]. destruct (observers w !! key o) as [old|] eqn:Hold; [|congruence].
    destruct (decide (obj old = obj o));
      (eexists; split; [reflexivity|]); (split; [repeat split|]);
      intros Hinv fd Hfd; cbn in *.
    + destruct (Hinv fd Hfd) as [Hreg Hop]. split; [|exact Hop].
      rewrite lookup_insert. destruct (decide _); eauto.
    + apply elem_of_difference in Hfd as [Hfd Hne].
      destruct (Hinv fd Hfd) as [Hreg Hop].
      split; [rewrite lookup_insert; destruct (decide _); eauto|].
      apply elem_of_difference. split; assumption.
Qed.

Lemma delObserver_step_ok (k : Z) (w : world) :
  exists w', delObserver k w = Ok tt w' /\ step_ok w w'.
Proof.
  unfold delObserver, epoll_delwatch, observers_erase.
  unfold Proc.bind, Proc.get, Proc.modify. cbn [observers set_epoll_set].
  destruct (observers w !! k) as [old|];
    (eexists; split; [reflexivity|]); (split; [repeat split|]);
    intros Hinv fd Hfd; cbn in *.
  - apply elem_of_difference in Hfd as [Hfd Hne].
    apply elem_of_difference in Hfd as [Hfd Hnk].
    destruct (Hinv fd Hfd) as [Hreg Hop].
    split; [rewrite lookup_delete_ne by set_solver; exact Hreg|].
    apply elem_of_difference. split; assumption.
  - apply elem_of_difference in Hfd as [Hfd Hnk].
    destruct (Hinv fd Hfd) as [Hreg Hop].
    split; [rewrite lookup_delete_ne by set_solver; exact Hreg|exact Hop].
Qed.

Lemma put_out_step_ok (bs : list byte) (w : world) : step_ok w (put_out bs w).
Proof. split; [repeat split|trivial]. Qed.

Lemma log_notify_step_ok (o : observer) (w : world) : step_ok w (log_notify o w).
Proof. split; [repeat split|trivial]. Qed.

Lemma StreamObserver_new_step_ok (listen_sock : Z) (reader : handler)
    (r : os_response) (w : world) :
  match StreamObserver_new listen_sock reader r w with
  | Ok _ w' => step_ok w w'
  | Throw _ w' => w' = w
  | Undefined => False
  end.
Proof.
  unfold StreamObserver_new, unix_accept.
  unfold fd_set_nonblock, new_object, Proc.bind, Proc.get, Proc.modify, Proc.ret.
  set (fd := if decide (listen_sock ∈ open_fds w) then r_accept r else -1).
  destruct (0 <=? fd) eqn:E1.
  - assert ((fd <? 0) = false) as -> by (apply Z.ltb_ge; apply Z.leb_le in E1; lia).
    split; [repeat split|]. intros Hinv x Hx. cbn in *.
    destruct (Hinv x Hx) as [Hreg Hop]. split; [exact Hreg|set_solver].
  - assert ((fd <? 0) = true) as -> by (apply Z.ltb_lt; apply Z.leb_gt in E1; lia).
    reflexivity.
Qed.

Lemma notify_step_ok (o : observer) (r : os_response) (w : world) :
  ends_in (step_ok w) (notify o r w).
Proof.
  unfold notify. destruct (cls o).
  - unfold SyslogObserver_notify.
    destruct (ReaderInterface_read_returns (_reader o) (sock_fd o) r w) as [bs ->].
    apply put_out_step_ok.
  - unfold SocketObserver_notify.
    destruct (ReaderInterface_read_returns (_reader o) (sock_fd o) r w) as [bs ->].
    apply put_out_step_ok.
  - unfold StreamObserver_notify, Proc.bind.
    destruct (ReaderInterface_read_returns (_reader o) (sock_fd o) r w) as [bs ->].
    destruct (delObserver_step_ok (sock_fd o) (put_out bs w)) as (w' & -> & Hok).
    cbn. eapply step_ok_trans; [apply put_out_step_ok|exact Hok].
  - unfold StdoutObserver_notify, Proc.bind.
    pose proof (StreamObserver_new_step_ok (sock_fd o) (_reader o) r w) as Hnew.
    destruct (StreamObserver_new _ _ _ _) as [so w1|e w1|]; [| |exact Hnew].
    + destruct (addObserver_step_ok so w1) as (w2 & -> & Hok).
      cbn. eapply step_ok_trans; eassumption.
    + cbn. subst w1. apply step_ok_refl.
Qed.

Lemma dispatch_step_ok (fd : Z) (r : os_response) (w : world) :
  ends_in (step_ok w) (dispatch fd r w).
Proof.
  unfold dispatch, Proc.bind at 1. unfold Proc.get.
  destruct (observers w !! fd) as [o|]; [|apply step_ok_refl].
  unfold Proc.bind, Proc.modify.
  pose proof (notify_step_ok o r (log_notify o w)) as H.
  destruct (notify o r (log_notify o w)); cbn in *; [| |exact H];
    (eapply step_ok_trans; [apply log_notify_step_ok|exact H]).
Qed.

Lemma deliver_watch (signo : option Z) (w : world) :
  exists w', deliver signo w = Ok tt w' /\
             observers w' = observers w /\ epoll_set w' = epoll_set w /\
             open_fds w' = open_fds w.
Proof.
  unfold deliver, Proc.bind, Proc.get.
  destruct signo as [n|]; [|eexists; split; [reflexivity|repeat split]].
  destruct (signals w !! n) as [[]|];
    eexists; (split; [reflexivity|repeat split]).
Qed.

Lemma watch_inv_same (w w' : world) :
  observers w' = observers w -> epoll_set w' = epoll_set w ->
  open_fds w' = open_fds w -> watch_inv w -> watch_inv w'.
Proof. unfold watch_inv. intros -> -> ->. trivial. Qed.

Lemma arrive_keeps_watch_inv (base : nat) (a : Z * nat) (w : world) :
  watch_inv w -> watch_inv (arrive base a w).
Proof.
  destruct (arrive_frame base a w) as (Ho & He & Hf & _).
  apply watch_inv_same; assumption.
Qed.

Lemma loop_from_keeps_watch_inv (es : list os_event) :
  forall (ev : Z) (w : world),
  watch_inv w -> ends_in watch_inv (loop_from es ev w).
Proof.
  induction es as [|e es IH]; intros ev w Hinv; cbn [loop_from].
  - destruct (stopped w); exact Hinv.
  - destruct (stopped w); [exact Hinv|].
    destruct (e_wait e) as [fd|signo|]; [| |exact Hinv].
    + apply ends_in_bind.
      * apply during_ends_in; [apply arrive_keeps_watch_inv|].
        pose proof (dispatch_step_ok fd (e_resp e) w) as H.
        destruct (dispatch fd (e_resp e) w); cbn in *; [| |exact H];
          apply H, Hinv.
      * intros _ w' Hw'. apply IH, Hw'.
    + destruct (ends_wait signo w); [|apply IH, Hinv].
      destruct (deliver_watch signo w) as (w1 & Hd & Ho & He & Hf).
      unfold Proc.bind at 1. rewrite Hd.
      assert (Hinv1 : watch_inv w1) by (eapply watch_inv_same; eauto).
      apply ends_in_bind.
      * apply during_ends_in; [apply arrive_keeps_watch_inv|].
        pose proof (dispatch_step_ok ev (e_resp e) w1) as H.
        destruct (dispatch ev (e_resp e) w1); cbn in *; [| |exact H];
          apply H, Hinv1.
      * intros _ w' Hw'. apply IH, Hw'.
Qed.

Lemma addObserver_quiet (o : observer) (w : world) :
  exists w', addObserver o w = Ok tt w' /\ out w' = out w /\
             notified w' = notified w.
Proof.
  unfold addObserver, observers_assign, epoll_addwatch.
  unfold Proc.bind, Proc.get, Proc.modify.
  destruct (decide (observers w !! key o = None)) as [Hnone|Hsome].
  - destruct (decide (key o ∈ open_fds w)); cbn [observers set_epoll_set];
      rewrite Hnone; eexists; (split; [reflexivity|split; reflexivity]).
  - cbn [Proc.ret]. destruct (observers w !! key o) as [old|]; [|congruence].
    destruct (decide (obj old = obj o));
      eexists; (split; [reflexivity|split; reflexivity]).
Qed.

(** One [try] block of [main] on any world: it returns, writes its
    report when the observer could not be built, and keeps the rest. *)
Lemma try_block_returns (c : observer_class) (reader : handler)
    (r : open_response) (w : world) :
  exists w',
    try_block (persistent_new c reader r) w = Ok tt w' /\
    err w' = err w ++ failure_report r /\
    stopped w' = stopped w /\ out w' = out w /\ notified w' = notified w /\
    signals w' = signals w /\
    (watch_inv w -> watch_inv w').
Proof.
  unfold try_block, Proc.try_catch, Proc.bind, persistent_new, unix_open,
    failure_report, opened.
  destruct (0 <=? o_socket r) eqn:Es; cbn [andb].
  - unfold Proc.bind, Proc.modify.
    destruct (o_bind r <? 0) eqn:Eb; cbn [negb].
    + cbn. eexists. split; [reflexivity|]. cbn.
      do 5 (split; [reflexivity|]).
      intros Hinv x Hx. cbn in *.
      apply elem_of_difference in Hx as [Hx Hne].
      destruct (Hinv x Hx) as [Hreg Hop]. split; [exact Hreg|set_solver].
    + cbn [Proc.ret].
      assert ((o_socket r <? 0) = false) as ->
        by (apply Z.ltb_ge; apply Z.leb_le in Es; lia).
      unfold new_object, Proc.bind, Proc.get, Proc.modify, Proc.ret.
      match goal with |- context [addObserver ?x ?v] =>
        set (o := x); set (w1 := v) end.
      destruct (addObserver_step_ok o w1) as (w2 & Hrun & (Hs & Hg & He) & Hw).
      destruct (addObserver_quiet o w1) as (w2' & Hrun' & Ho & Hn).
      rewrite Hrun in Hrun'. injection Hrun' as <-.
      rewrite Hrun. eexists. split; [reflexivity|].
      rewrite He, Hs, Hg, Ho, Hn, app_nil_r.
      do 5 (split; [reflexivity|]).
      intros Hinv. apply Hw. intros x Hx. subst w1. cbn in *.
      destruct (Hinv x Hx) as [Hreg Hop]. split; [exact Hreg|set_solver].
  - unfold Proc.ret.
    assert ((o_socket r <? 0) = true) as ->
      by (apply Z.ltb_lt; apply Z.leb_gt in Es; lia).
    cbn. eexists. split; [reflexivity|].
    do 5 (split; [reflexivity|]). trivial.
Qed.

(** [main] up to [loop], whatever the kernel answers: it returns, and
    standard error holds one report per observer that was not built. *)
Lemma main_observers_returns (b : boot) :
  exists w,
    main_observers b start_world = Ok tt w /\
    err w = failure_report (b_syslog b) ++ failure_report (b_journal b)
              ++ failure_report (b_stdout b) /\
    stopped w = false /\ out w = [] /\ notified w = [] /\ signals w = ∅ /\
    watch_inv w.
Proof.
  rewrite main_observers_blocks.
  destruct (try_block_returns SyslogObserver SyslogHandler (b_syslog b) start_world)
    as (w1 & Hr1 & He1 & Hs1 & Ho1 & Hn1 & Hg1 & Hw1).
  destruct (try_block_returns SocketObserver JournalHandler (b_journal b) w1)
    as (w2 & Hr2 & He2 & Hs2 & Ho2 & Hn2 & Hg2 & Hw2).
  destruct (try_block_returns StdoutObserver StreamHandler (b_stdout b) w2)
    as (w3 & Hr3 & He3 & Hs3 & Ho3 & Hn3 & Hg3 & Hw3).
  unfold Proc.bind at 1. rewrite Hr1. unfold Proc.bind. rewrite Hr2, Hr3.
  exists w3. split; [reflexivity|].
  rewrite He3, He2, He1, Hs3, Hs2, Hs1, Ho3, Ho2, Ho1, Hn3, Hn2, Hn1, Hg3, Hg2, Hg1.
  cbn [err start_world app]. rewrite <- (assoc_L (++)).
  do 5 (split; [reflexivity|]).
  apply Hw3, Hw2, Hw1. intros fd Hfd. cbn in Hfd. set_solver.
Qed.

Lemma loop_unfold (ev0 : Z) (es : list os_event) (w : world) :
  loop ev0 es w = loop_from es ev0 (install_signals w).
Proof. reflexivity. Qed.

Lemma main_unfold (b : boot) (es : list os_event) (w : world) :
  main_observers b start_world = Ok tt w ->
  main b es start_world
  = Proc.bind (loop_from es (b_ev b)) (fun _ => Proc.ret 0) (install_signals w).
Proof.
  intros H. unfold main. unfold Proc.bind at 1. rewrite H.
  unfold Proc.bind at 1. rewrite loop_unfold. reflexivity.
Qed.

(** In every run of [main] a watched descriptor is the key of a
    registered observer and is open. *)
Theorem watched_descriptors_are_registered (b : boot) (es : list os_event) :
  exists w,
    world_of (main b es start_world) = Some w /\
    forall fd, fd ∈ epoll_set w ->
               is_Some (observers w !! fd) /\ fd ∈ open_fds w.
Proof.
  destruct (main_observers_returns b) as (w0 & Hrun & _ & _ & _ & _ & _ & Hinv).
  rewrite (main_unfold b es w0 Hrun).
  assert (Hinv' : watch_inv (install_signals w0)) by exact Hinv.
  pose proof (loop_from_keeps_watch_inv es (b_ev b) _ Hinv') as H.
  unfold Proc.bind.
  destruct (loop_from es (b_ev b) (install_signals w0)) as [e w|e w|];
    cbn in *; [| |contradiction]; exists w; split; auto.
Qed.

(** Whatever [socket] and [bind] answer, [main] gets to [loop]: it
    throws nothing while it builds the observers, standard error holds
    [socket failed] once for each observer that was not built, and
    nothing has been written to standard output. *)
Theorem main_always_reaches_loop (b : boot) :
  exists w,
    main_observers b start_world = Ok tt w /\
    err w = failure_report (b_syslog b) ++ failure_report (b_journal b)
              ++ failure_report (b_stdout b) /\
    stopped w = false /\ out w = [] /\
    forall es, main b es start_world
               = Proc.bind (loop (b_ev b) es) (fun _ => Proc.ret 0) w.
Proof.
  destruct (main_observers_returns b) as (w & Hrun & He & Hs & Ho & _).
  exists w. repeat split; try assumption.
  intros es. unfold main. unfold Proc.bind at 1. rewrite Hrun. reflexivity.
Qed.

(** A failing [epoll_wait] is fatal: if the first wait fails for another
    reason than a signal, [main] ends with
    [runtime_error("epoll_wait failed")], no observer was notified and
    nothing was written to standard output, whatever would have come
    next. *)
Theorem wait_failure_ends_main (b : boot) (r : os_response)
    (es : list os_event) :
  exists w,
    main b (mk_event Failed r :: es) start_world
      = Throw (runtime_error "epoll_wait failed") w /\
    notified w = [] /\ out w = [].
Proof.
  destruct (main_observers_returns b) as (w & Hrun & _ & Hs & Ho & Hn & _).
  rewrite (main_unfold b _ w Hrun). unfold Proc.bind. cbn [loop_from].
  change (stopped (install_signals w)) with (stopped w). rewrite Hs.
  cbn [e_wait mk_event]. eexists. split; [reflexivity|]. split; assumption.
Qed.

(** Once [loop] has returned or thrown, events that would have come
    later play no part: the outcome is the same with any events
    appended. *)
Theorem loop_ignores_events_after_its_end (es more : list os_event) (ev : Z)
    (w : world) :
  run_over (loop_from es ev w) ->
  loop_from (es ++ more) ev w = loop_from es ev w.
Proof.
  revert ev w. induction es as [|e es IH]; intros ev w Hover.
  - cbn [loop_from] in Hover. destruct (stopped w) eqn:Hs; [|contradiction].
    destruct more; cbn [app loop_from]; rewrite Hs; reflexivity.
  - cbn [app loop_from] in *. destruct (stopped w); [reflexivity|].
    destruct (e_wait e) as [fd|signo|]; [| |reflexivity].
    + unfold Proc.bind in *.
      destruct (during (e_async e) (dispatch fd (e_resp e)) w); auto.
    + destruct (ends_wait signo w); [|auto].
      unfold Proc.bind in *. destruct (deliver signo w); [|reflexivity..].
      destruct (during (e_async e) (dispatch ev (e_resp e)) w0); auto.
Qed.

Lemma loop_ignores_events_after_its_end_witness :
  loop_from ([mk_event Failed nothing_pending] ++ accept_then_sigterm) 0 start_world
  = loop_from [mk_event Failed nothing_pending] 0 start_world.
Proof.
  apply (loop_ignores_events_after_its_end [mk_event Failed nothing_pending]
           accept_then_sigterm 0 start_world).
  exact I.
Defined.

Lemma dispatch_keeps_flag (fd : Z) (r : os_response) (w : world) :
  ends_in (fun w' => stopped w' = stopped w) (dispatch fd r w).
Proof.
  pose proof (dispatch_step_ok fd r w) as H.
  destruct (dispatch fd r w); cbn in *; [| |exact H]; apply H.
Qed.

(** A callback during which no signal arrives is the callback. *)
Lemma during_nil (m : Proc.M unit) (w : world) : during [] m w = m w.
Proof. unfold during. cbn [foldl]. destruct (m w); reflexivity. Qed.

Lemma loop_from_without_signal (es : list os_event) :
  forall (ev : Z) (w : world),
  stopped w = false -> no_signal es ->
  match loop_from es ev w with
  | Ok In_wait w' => stopped w' = false
  | Throw _ w' => stopped w' = false
  | _ => False
  end.
Proof.
  induction es as [|e es IH]; intros ev w Hs Hno; cbn [loop_from]; rewrite Hs.
  - exact Hs.
  - apply Forall_cons in Hno as [[He Ha] Hno]. rewrite Ha.
    destruct (e_wait e) as [fd|[s|]|] eqn:Hw; [| | |exact Hs].
    + unfold Proc.bind. rewrite during_nil.
      pose proof (dispatch_keeps_flag fd (e_resp e) w) as H.
      destruct (dispatch fd (e_resp e) w); cbn in H; [| |exact H].
      * apply IH; [congruence|exact Hno].
      * congruence.
    + exfalso. exact (He s eq_refl).
    + cbn [ends_wait]. unfold Proc.bind at 1.
      cbn [deliver Proc.bind Proc.get Proc.ret].
      unfold Proc.bind. rewrite during_nil.
      pose proof (dispatch_keeps_flag ev (e_resp e) w) as H.
      destruct (dispatch ev (e_resp e) w); cbn in H; [| |exact H].
      * apply IH; [congruence|exact Hno].
      * congruence.
Qed.

(** [stopped] is set by nothing but the signal handler: in a run
    during which no signal arrives, neither while the program waits nor
    while a callback runs, [loop] does not return; the run either is
    back in [epoll_wait] or has thrown, and the flag is still false. *)
Theorem loop_returns_only_after_a_signal (es : list os_event) (ev0 : Z)
    (w : world) :
  stopped w = false -> no_signal es ->
  (forall w', loop ev0 es w <> Ok Left_loop w') /\
  ends_in (fun w' => stopped w' = false) (loop ev0 es w).
Proof.
  intros Hs Hno. rewrite loop_unfold.
  pose proof (loop_from_without_signal es ev0 (install_signals w) Hs Hno) as H.
  destruct (loop_from es ev0 (install_signals w)) as [[] w'|e w'|];
    cbn in *; try contradiction; split; try assumption; intros w''; discriminate.
Qed.

Lemma loop_returns_only_after_a_signal_witness :
  (forall w', loop 0 accept_fails_then_datagram world_with_3 <> Ok Left_loop w') /\
  ends_in (fun w' => stopped w' = false)
          (loop 0 accept_fails_then_datagram world_with_3).
Proof.
  apply (loop_returns_only_after_a_signal accept_fails_then_datagram 0 world_with_3).
  - reflexivity.
  - repeat constructor; intros s H; discriminate H.
Defined.

Lemma install_signals_lookup (w : world) :
  signals (install_signals w) !! SIGINT = Some Handler_stop /\
  signals (install_signals w) !! SIGTERM = Some Handler_stop /\
  signals (install_signals w) !! SIGHUP = Some SIG_IGN /\
  signals (install_signals w) !! SIGUSR1 = Some SIG_IGN.
Proof.
  unfold install_signals, SIGINT, SIGTERM, SIGHUP, SIGUSR1. cbn.
  repeat split; simplify_map_eq; reflexivity.
Qed.

(** SIGINT or SIGTERM during a wait ends [loop]: the handler prints its
    line and sets the flag, the descriptor the stale event names is
    dispatched once more (harmless when it names no observer or one of
    the datagram observers), and [loop] returns without looking at any
    further event; the registry is as before. *)
Theorem shutdown_signal_ends_loop (s ev0 : Z) (r : os_response)
    (es : list os_event) (w : world) :
  s = SIGINT \/ s = SIGTERM -> stopped w = false ->
  (forall o, observers w !! ev0 = Some o ->
             cls o = SyslogObserver \/ cls o = SocketObserver) ->
  exists w' bs,
    loop ev0 (mk_event (Interrupted (Some s)) r :: es) w = Ok Left_loop w' /\
    stopped w' = true /\ observers w' = observers w /\
    epoll_set w' = epoll_set w /\ open_fds w' = open_fds w /\
    out w' = out w ++ stop_message s ++ bs.
Proof.
  intros Hsig Hs Hev. rewrite loop_unfold.
  cbn [loop_from mk_event e_wait e_resp e_async].
  change (stopped (install_signals w)) with (stopped w). rewrite Hs.
  destruct (install_signals_lookup w) as (Hint & Hterm & _).
  assert (Hl : signals (install_signals w) !! s = Some Handler_stop)
    by (destruct Hsig as [->| ->]; assumption).
  unfold ends_wait, caught. rewrite Hl.
  unfold Proc.bind at 1. unfold deliver, Proc.bind at 1, Proc.get.
  rewrite Hl. unfold stop, Proc.bind at 1 2, Proc.modify.
  set (w1 := set_stopped true (put_out _ (install_signals w))).
  unfold Proc.bind. rewrite during_nil. unfold dispatch, Proc.bind at 1, Proc.get.
  change (observers w1) with (observers w).
  destruct (observers w !! ev0) as [o|] eqn:Ho.
  - unfold Proc.bind, Proc.modify.
    destruct (datagram_observer_frame o r (log_notify o w1) (Hev o eq_refl))
      as [bs ->].
    destruct es; cbn [loop_from]; exists (put_out bs (log_notify o w1)), bs;
      (split; [reflexivity|]); cbn; rewrite <- (assoc_L (++)); repeat split.
  - cbn [Proc.ret]. destruct es; cbn [loop_from]; exists w1, [];
      (split; [reflexivity|]); cbn; rewrite app_nil_r; repeat split.
Qed.

Lemma shutdown_signal_ends_loop_witness :
  exists w' bs,
    loop 3 (mk_event (Interrupted (Some SIGTERM)) nothing_pending
              :: accept_fails_then_datagram) world_with_3 = Ok Left_loop w' /\
    stopped w' = true /\ observers w' = observers world_with_3 /\
    epoll_set w' = epoll_set world_with_3 /\ open_fds w' = open_fds world_with_3 /\
    out w' = out world_with_3 ++ stop_message SIGTERM ++ bs.
Proof.
  apply (shutdown_signal_ends_loop SIGTERM 3 nothing_pending
           accept_fails_then_datagram world_with_3).
  - right. reflexivity.
  - reflexivity.
  - intros o H. left. vm_compute in H. injection H as <-. reflexivity.
Defined.

(** ** Signals the program ignores *)

Lemma install_signals_ignores (w : world) : ignores_flush (install_signals w).
Proof.
  intros s Hs. unfold caught.
  destruct (install_signals_lookup w) as (_ & _ & Hhup & Husr).
  unfold is_flush in Hs. apply orb_true_iff in Hs as [Hs|Hs];
    apply Z.eqb_eq in Hs; subst s.
  - rewrite Husr. reflexivity.
  - rewrite Hhup. reflexivity.
Qed.

Lemma ignores_flush_same (w w' : world) :
  signals w' = signals w -> ignores_flush w -> ignores_flush w'.
Proof. intros Heq H s Hs. unfold caught. rewrite Heq. exact (H s Hs). Qed.

Lemma loop_from_stopped (es : list os_event) (ev : Z) (w : world) :
  stopped w = true -> loop_from es ev w = Ok Left_loop w.
Proof. intros Hs. destruct es; cbn [loop_from]; rewrite Hs; reflexivity. Qed.

(** Arrivals of an ignored signal during a callback can be struck
    out. *)
Lemma arrived_strike (base : nat) (asyncs : list (Z * nat)) :
  forall v, ignores_flush v ->
  foldl (fun v a => arrive base a v) v asyncs
  = foldl (fun v a => arrive base a v) v (strike asyncs).
Proof.
  induction asyncs as [|a asyncs IH]; intros v Hv; [reflexivity|].
  unfold strike. cbn [foldl]. rewrite filter_cons.
  destruct (decide (is_flush a.1 = false)) as [Hf|Hf].
  - cbn [foldl]. apply IH.
    eapply ignores_flush_same; [|exact Hv]. apply arrive_frame.
  - apply not_false_is_true in Hf.
    assert (arrive base a v = v) as ->
      by (unfold arrive; rewrite (Hv _ Hf); reflexivity).
    apply IH, Hv.
Qed.

Lemma dispatch_keeps_signals (fd : Z) (r : os_response) (w : world) :
  ends_in (fun w' => signals w' = signals w) (dispatch fd r w).
Proof.
  pose proof (dispatch_step_ok fd r w) as H.
  destruct (dispatch fd r w); cbn in *; [| |exact H]; apply H.
Qed.

Lemma during_strike (asyncs : list (Z * nat)) (fd : Z) (r : os_response)
    (w : world) :
  ignores_flush w ->
  during asyncs (dispatch fd r) w = during (strike asyncs) (dispatch fd r) w.
Proof.
  intros Hw. unfold during.
  pose proof (dispatch_keeps_signals fd r w) as H.
  destruct (dispatch fd r w) as [a w'|e w'|]; cbn in H; [| |reflexivity];
    f_equal; apply arrived_strike; eapply ignores_flush_same; eauto.
Qed.

Lemma during_keeps_ignores (asyncs : list (Z * nat)) (fd : Z)
    (r : os_response) (w : world) :
  ignores_flush w -> ends_in ignores_flush (during asyncs (dispatch fd r) w).
Proof.
  intros Hw. apply during_ends_in.
  - intros base a v Hv. eapply ignores_flush_same; [|exact Hv]. apply arrive_frame.
  - pose proof (dispatch_keeps_signals fd r w) as H.
    destruct (dispatch fd r w); cbn in *; [| |exact H];
      eapply ignores_flush_same; eauto.
Qed.

Lemma deliver_keeps_signals (signo : option Z) (w : world) :
  exists w', deliver signo w = Ok tt w' /\ signals w' = signals w.
Proof.
  unfold deliver, Proc.bind, Proc.get.
  destruct signo as [n|]; [|eexists; split; reflexivity].
  destruct (signals w !! n) as [[]|]; eexists; split; reflexivity.
Qed.

(** One turn that ends the wait, with and without the ignored
    arrivals. *)
Lemma turn_without_flush (signo : option Z) (asyncs : list (Z * nat))
    (r : os_response) (ev : Z) (k k' : Proc.M loop_end) (w : world) :
  ignores_flush w ->
  (forall v, ignores_flush v -> k v = k' v) ->
  (deliver signo ;; during asyncs (dispatch ev r) ;; k)%proc w
  = (deliver signo ;; during (strike asyncs) (dispatch ev r) ;; k')%proc w.
Proof.
  intros Hw Hk. unfold Proc.bind at 1 3.
  destruct (deliver_keeps_signals signo w) as (w1 & -> & Hsig).
  assert (Hw1 : ignores_flush w1) by (eapply ignores_flush_same; eauto).
  unfold Proc.bind. rewrite (during_strike asyncs ev r w1 Hw1).
  pose proof (during_keeps_ignores (strike asyncs) ev r w1 Hw1) as H.
  destruct (during (strike asyncs) (dispatch ev r) w1); cbn in H; auto.
Qed.

Lemma loop_from_without_flush (es : list os_event) :
  forall (ev : Z) (w : world),
  ignores_flush w ->
  loop_from es ev w = loop_from (without_flush es) ev w.
Proof.
  induction es as [|e es IH]; intros ev w Hw; [reflexivity|].
  destruct (stopped w) eqn:Hst; [rewrite !loop_from_stopped; auto|].
  cbn [without_flush].
  destruct (e_wait e) as [fd|[s|]|] eqn:He.
  - cbn [loop_from e_wait e_resp e_async]. rewrite Hst, He.
    unfold Proc.bind. rewrite (during_strike _ fd _ w Hw).
    pose proof (during_keeps_ignores (strike (e_async e)) fd (e_resp e) w Hw) as H.
    destruct (during (strike (e_async e)) (dispatch fd (e_resp e)) w);
      cbn in H; auto.
  - destruct (is_flush s) eqn:Hf.
    + cbn [loop_from]. rewrite Hst, He. cbn [ends_wait].
      rewrite (Hw s Hf). apply IH, Hw.
    + cbn [loop_from e_wait e_resp e_async]. rewrite Hst, He.
      destruct (ends_wait (Some s) w); [|apply IH, Hw].
      apply turn_without_flush; [exact Hw|]. intros v Hv. apply IH, Hv.
  - cbn [loop_from e_wait e_resp e_async]. rewrite Hst, He. cbn [ends_wait].
    apply turn_without_flush; [exact Hw|]. intros v Hv. apply IH, Hv.
  - cbn [loop_from e_wait]. rewrite Hst, He. reflexivity.
Qed.

(** SIGUSR1 and SIGHUP play no part in a run of [loop]: whenever
    they arrive, while the program waits or while a callback runs, and
    however often, the run ends exactly as the run in which they never
    arrived; [stop] does not run for them, no wait ends with EINTR
    because of them, and nothing is dispatched for them. *)
Theorem flush_signals_are_ignored (ev0 : Z) (es : list os_event) (w : world) :
  loop ev0 es w = loop ev0 (without_flush es) w.
Proof.
  rewrite !loop_unfold. apply loop_from_without_flush.
  apply install_signals_ignores.
Qed.



(** Registering the same observer object a second time, and
    deregistering the same key a second time, change nothing: each
    operation done twice leaves the world the first call left. *)
Theorem registry_operations_are_idempotent (o : observer) (k : Z) (w : world) :
  (exists w1, addObserver o w = Ok tt w1 /\ addObserver o w1 = Ok tt w1) /\
  (exists w1, delObserver k w = Ok tt w1 /\ delObserver k w1 = Ok tt w1).
Proof.
  split.
  - assert (Hsecond : forall w1, observers w1 !! key o = Some o ->
                                 addObserver o w1 = Ok tt w1).
    { intros w1 H1. unfold addObserver, observers_assign.
      unfold Proc.bind, Proc.get, Proc.modify.
      destruct (decide (observers w1 !! key o = None)) as [Hc|_]; [congruence|].
      cbn [Proc.ret]. rewrite H1.
      destruct (decide (obj o = obj o)) as [_|Hc]; [|congruence].
      cbn [Proc.ret]. f_equal. destruct w1; unfold set_observers; cbn in *.
      f_equal. apply insert_id. exact H1. }
    destruct (addObserver_registry o w) as (w1 & Hrun & Ho & _).
    exists w1. split; [exact Hrun|]. apply Hsecond. rewrite Ho.
    apply lookup_insert_eq.
  - destruct (delObserver_registry k w) as (w1 & Hrun & Ho & _ & _ & _ & Hep & _).
    exists w1. split; [exact Hrun|].
    destruct (delObserver_absent_is_noop_general w1 k) as (w2 & Hrun2 & Hsame);
      [rewrite Ho; apply lookup_delete_eq|].
    rewrite Hrun2. f_equal. apply Hsame. exact Hep.
Qed.

(** In every run of [main] the registry is keyed by the observers' own
    descriptors: the observer found under a key reports that key from
    [key()], and no object is registered under two keys. *)
Theorem registry_keys_are_descriptors (b : boot) (es : list os_event) :
  exists w,
    world_of (main b es start_world) = Some w /\
    (forall k o, observers w !! k = Some o -> key o = k) /\
    (forall k1 k2 o1 o2,
       observers w !! k1 = Some o1 -> observers w !! k2 = Some o2 ->
       obj o1 = obj o2 -> k1 = k2).
Proof.
  pose proof (main_preserves_inv b es) as H.
  destruct (main b es start_world) as [z w|e w|]; cbn in H; [| |contradiction];
    exists w; (split; [reflexivity|]); destruct H; split; assumption.
Qed.
